(** * OCluDAL: the active-learning pool, its sampling strategies and its loop

    A shallow embedding of [src/OCluDAL.py].  The Python object is a record
    that every method threads through a state-and-exception monad; NumPy
    arrays are lists, NumPy integer indices are [Z] (negative indices wrap
    around as NumPy's do), probabilities are real numbers ([np.log] is [ln];
    the rounding of float64 is not modelled) and the scikit-learn
    collaborators (classifier, one-class SVM, affinity propagation, metrics,
    the global random generator) are the methods of a class.  Printing and
    the files written by [run_classification] and [save_clf] are left out:
    the table on disk is [self.data]. *)

From Stdlib Require Import String.
From Stdlib Require Import List ZArith Lia Bool Arith Permutation.
From Stdlib Require Import Reals Lra Sorted.
From Stdlib Require OrdersEx.
Import ListNotations.

Set Implicit Arguments.

(** ** NumPy indexing primitives *)

Module Np.

Section Arrays.
Context {A : Type}.

(** An integer index [i] into an axis of size [len]: [0 <= i < len] is the
    position itself, [-len <= i < 0] counts from the end, anything else is
    an [IndexError] ([None]). *)
Definition normalize_index (len : nat) (i : Z) : option nat :=
  if ((0 <=? i) && (i <? Z.of_nat len))%Z then Some (Z.to_nat i)
  else if ((- Z.of_nat len <=? i) && (i <? 0))%Z
       then Some (Z.to_nat (i + Z.of_nat len))
       else None.

Fixpoint normalize_all (len : nat) (indices : list Z) : option (list nat) :=
  match indices with
  | [] => Some []
  | i :: rest =>
      match normalize_index len i with
      | None => None
      | Some k =>
          match normalize_all len rest with
          | None => None
          | Some ks => Some (k :: ks)
          end
      end
  end.

Fixpoint gather (arr : list A) (ks : list nat) : option (list A) :=
  match ks with
  | [] => Some []
  | k :: rest =>
      match nth_error arr k with
      | None => None
      | Some x =>
          match gather arr rest with
          | None => None
          | Some xs => Some (x :: xs)
          end
      end
  end.

(** [arr[indices]] with a list of integers: the rows at those positions, in
    the order given, one per occurrence; [None] is [IndexError]. *)
Definition take (arr : list A) (indices : list Z) : option (list A) :=
  match normalize_all (length arr) indices with
  | None => None
  | Some ks => gather arr ks
  end.

(** Rows of [arr], from position [pos] on, whose position is not in [ks]. *)
Fixpoint keep_from (pos : nat) (ks : list nat) (arr : list A) : list A :=
  match arr with
  | [] => []
  | x :: rest =>
      if existsb (Nat.eqb pos) ks
      then keep_from (S pos) ks rest
      else x :: keep_from (S pos) ks rest
  end.

(** [np.delete(arr, indices, axis=0)]: a boolean keep-mask is cleared at
    every (normalised) index and the rows still marked are returned;
    [None] is [IndexError]. *)
Definition delete (arr : list A) (indices : list Z) : option (list A) :=
  match normalize_all (length arr) indices with
  | None => None
  | Some ks => Some (keep_from 0 ks arr)
  end.

(** [l[:n]] and [l[k:]] for Python's slices, negative bounds included. *)
Definition slice_to (l : list A) (n : Z) : list A :=
  let len := Z.of_nat (length l) in
  let stop := if (n <? 0)%Z then Z.max (len + n) 0 else Z.min n len in
  firstn (Z.to_nat stop) l.

Definition slice_from (l : list A) (k : Z) : list A :=
  let len := Z.of_nat (length l) in
  let start := if (k <? 0)%Z then Z.max (len + k) 0 else Z.min k len in
  skipn (Z.to_nat start) l.

(** [arr[mask]] with a boolean mask of the array's length. *)
Fixpoint compress (mask : list bool) (arr : list A) : list A :=
  match mask, arr with
  | b :: mask', x :: arr' =>
      if b then x :: compress mask' arr' else compress mask' arr'
  | _, _ => []
  end.
End Arrays.

End Np.

(** ** Sorting indices by a real key *)

Module Argsort.

(** [insert key i l] puts index [i] after every index of the sorted list
    [l] whose key is not larger: equal keys keep their order. *)
Fixpoint insert (key : nat -> R) (i : nat) (l : list nat) : list nat :=
  match l with
  | [] => [i]
  | j :: rest =>
      if Rle_dec (key j) (key i) then j :: insert key i rest else i :: l
  end.

Definition sort_indices (key : nat -> R) (len : nat) : list nat :=
  fold_left (fun acc i => insert key i acc) (seq 0 len) [].

(** [np.argsort(v)]: the positions of [v], by increasing value.  NumPy's
    default sort leaves the order of equal values unspecified; here equal
    values keep their positions' order. *)
Definition argsort (v : list R) : list nat :=
  sort_indices (fun i => nth i v 0%R) (length v).

(** [np.argmax(v)] for a non-empty [v]: the first position of the largest
    value. *)
Fixpoint argmax_from (best : nat) (bestv : R) (pos : nat) (v : list R) : nat :=
  match v with
  | [] => best
  | x :: rest =>
      if Rlt_dec bestv x then argmax_from pos x (S pos) rest
      else argmax_from best bestv (S pos) rest
  end.

Definition argmax (v : list R) : nat :=
  match v with
  | [] => 0%nat
  | x :: rest => argmax_from 0 x 1 rest
  end.

End Argsort.

(** ** The data model *)

Definition row := list R.
Definition label := string.

(** A two-dimensional float array with its [shape]: [n_classes] columns and
    one entry of [rows] per sample. *)
Record matrix : Type := Matrix { n_classes : nat; rows : list (list R) }.

Definition n_samples (m : matrix) : nat := length (rows m).

Definition wf_matrix (m : matrix) : Prop :=
  Forall (fun r => length r = n_classes m) (rows m).

(** The exceptions the methods let escape. *)
Inductive exn : Type :=
| IndexError
| ValueError
| AssertionError
| UnboundLocalError.

(** One row of the results table [self.data]. *)
Record IterationRecord : Type := {
  Accuracy : R;
  F1_Score : R;
  Train_Accuracy : R;
  Number_of_Annotations : nat;
  rec_damping : R;
  rec_preference : R;
  Train_type : string;
  Classes : nat
}.

(** Calls that leave the object: classifier fits, clusterings, and the
    annotation requests to the oracle. *)
Inductive call : Type :=
| CallFit
| CallCluster
| CallAnnotate.

(** The scikit-learn and NumPy collaborators.  Each is a total function of its
    arguments: a classifier is determined by the data it was fitted on, a
    one-class SVM predicts row by row, and [np.random.choice] without
    replacement is a prefix of a permutation drawn from the generator. *)
Class Collaborators : Type := {
  classifier : Type;
  clf_fit : list row -> list label -> classifier;
  clf_predict : classifier -> list row -> list label;
  clf_predict_proba : classifier -> list row -> matrix;
  f1_score_weighted : list label -> list label -> R;
  accuracy_score : list label -> list label -> R;
  one_class_svm : Type;
  ocsvm_fit : list row -> one_class_svm;
  ocsvm_predict : one_class_svm -> row -> Z;
  ap_cluster_centers : R -> R -> list row -> list row;
  random_state : Type;
  rng_permutation : random_state -> nat -> list nat * random_state
}.

Section Model.
Context {sk : Collaborators}.

(** The fields of the object that the loop reads and writes, the state of
    NumPy's global generator, and the log of outside calls. *)
Record OCluDAL : Type := {
  df_main : list (row * label);
  labelled_X_new : list row;
  labelled_y_new : list label;
  unlabelled_X_new : list row;
  unlabelled_y_new : list label;
  unique_labels : list label;
  data : list IterationRecord;
  damping : R;
  preference : R;
  training_type : string;
  np_random : random_state;
  calls : list call
}.

Definition set_labelled_X_new (v : list row) (s : OCluDAL) : OCluDAL :=
  {| df_main := df_main s; labelled_X_new := v;
     labelled_y_new := labelled_y_new s;
     unlabelled_X_new := unlabelled_X_new s;
     unlabelled_y_new := unlabelled_y_new s;
     unique_labels := unique_labels s; data := data s;
     damping := damping s; preference := preference s;
     training_type := training_type s; np_random := np_random s;
     calls := calls s |}.

Definition set_labelled_y_new (v : list label) (s : OCluDAL) : OCluDAL :=
  {| df_main := df_main s; labelled_X_new := labelled_X_new s;
     labelled_y_new := v;
     unlabelled_X_new := unlabelled_X_new s;
     unlabelled_y_new := unlabelled_y_new s;
     unique_labels := unique_labels s; data := data s;
     damping := damping s; preference := preference s;
     training_type := training_type s; np_random := np_random s;
     calls := calls s |}.

Definition set_unlabelled_X_new (v : list row) (s : OCluDAL) : OCluDAL :=
  {| df_main := df_main s; labelled_X_new := labelled_X_new s;
     labelled_y_new := labelled_y_new s;
     unlabelled_X_new := v;
     unlabelled_y_new := unlabelled_y_new s;
     unique_labels := unique_labels s; data := data s;
     damping := damping s; preference := preference s;
     training_type := training_type s; np_random := np_random s;
     calls := calls s |}.

Definition set_unlabelled_y_new (v : list label) (s : OCluDAL) : OCluDAL :=
  {| df_main := df_main s; labelled_X_new := labelled_X_new s;
     labelled_y_new := labelled_y_new s;
     unlabelled_X_new := unlabelled_X_new s;
     unlabelled_y_new := v;
     unique_labels := unique_labels s; data := data s;
     damping := damping s; preference := preference s;
     training_type := training_type s; np_random := np_random s;
     calls := calls s |}.

Definition set_data (v : list IterationRecord) (s : OCluDAL) : OCluDAL :=
  {| df_main := df_main s; labelled_X_new := labelled_X_new s;
     labelled_y_new := labelled_y_new s;
     unlabelled_X_new := unlabelled_X_new s;
     unlabelled_y_new := unlabelled_y_new s;
     unique_labels := unique_labels s; data := v;
     damping := damping s; preference := preference s;
     training_type := training_type s; np_random := np_random s;
     calls := calls s |}.

Definition set_training_type (v : string) (s : OCluDAL) : OCluDAL :=
  {| df_main := df_main s; labelled_X_new := labelled_X_new s;
     labelled_y_new := labelled_y_new s;
     unlabelled_X_new := unlabelled_X_new s;
     unlabelled_y_new := unlabelled_y_new s;
     unique_labels := unique_labels s; data := data s;
     damping := damping s; preference := preference s;
     training_type := v; np_random := np_random s;
     calls := calls s |}.

Definition set_np_random (v : random_state) (s : OCluDAL) : OCluDAL :=
  {| df_main := df_main s; labelled_X_new := labelled_X_new s;
     labelled_y_new := labelled_y_new s;
     unlabelled_X_new := unlabelled_X_new s;
     unlabelled_y_new := unlabelled_y_new s;
     unique_labels := unique_labels s; data := data s;
     damping := damping s; preference := preference s;
     training_type := training_type s; np_random := v;
     calls := calls s |}.

Definition set_calls (v : list call) (s : OCluDAL) : OCluDAL :=
  {| df_main := df_main s; labelled_X_new := labelled_X_new s;
     labelled_y_new := labelled_y_new s;
     unlabelled_X_new := unlabelled_X_new s;
     unlabelled_y_new := unlabelled_y_new s;
     unique_labels := unique_labels s; data := data s;
     damping := damping s; preference := preference s;
     training_type := training_type s; np_random := np_random s;
     calls := v |}.

(** *** Methods as state transformers that may raise *)

(** A method either returns a value or raises; both carry the object as the
    method left it. *)
Inductive outcome (A : Type) : Type :=
| Ok (a : A) (s : OCluDAL)
| Raise (e : exn) (s : OCluDAL).

Arguments Ok {A} a s.
Arguments Raise {A} e s.

Definition M (A : Type) : Type := OCluDAL -> outcome A.

Definition ret {A : Type} (a : A) : M A := fun s => Ok a s.

Definition bind {A B : Type} (m : M A) (k : A -> M B) : M B :=
  fun s => match m s with
           | Ok a s' => k a s'
           | Raise e s' => Raise e s'
           end.

Definition get : M OCluDAL := fun s => Ok s s.
Definition modify (f : OCluDAL -> OCluDAL) : M unit := fun s => Ok tt (f s).
Definition raise {A : Type} (e : exn) : M A := fun s => Raise e s.

Definition or_raise {A : Type} (e : exn) (o : option A) : M A :=
  match o with
  | Some a => ret a
  | None => raise e
  end.

Definition assert_ (b : bool) : M unit :=
  if b then ret tt else raise AssertionError.

Definition record_call (c : call) : M unit :=
  modify (fun s => set_calls (calls s ++ [c]) s).

Definition final_state {A : Type} (o : outcome A) : OCluDAL :=
  match o with
  | Ok _ s => s
  | Raise _ s => s
  end.

(** What the caller sees of an outcome: the value returned or the exception. *)
Definition result_of {A : Type} (o : outcome A) : A + exn :=
  match o with
  | Ok a _ => inl a
  | Raise e _ => inr e
  end.

End Model.

Arguments Ok {sk A} a s.
Arguments Raise {sk A} e s.

Declare Scope method_scope.
Delimit Scope method_scope with method.
Notation "x <- m ;; k" := (bind m (fun x => k))
  (at level 61, m at next level, right associativity) : method_scope.
Notation "m ;; k" := (bind m (fun _ => k))
  (at level 61, right associativity) : method_scope.
Open Scope method_scope.

Section Methods.
Context {sk : Collaborators}.

Definition row_eq_dec : forall a b : row, {a = b} + {a <> b} :=
  list_eq_dec Req_EM_T.

(** [len(np.unique(y))] *)
Definition count_unique (y : list label) : nat :=
  length (nodup string_dec y).

(** *** Pool Manager: [oracle_annotations] *)

Definition oracle_annotations (indices : list Z) : M unit :=
  record_call CallAnnotate ;;
  self <- get ;;
  representative_X <-
    or_raise IndexError (Np.take (unlabelled_X_new self) indices) ;;
  representative_y <-
    or_raise IndexError (Np.take (unlabelled_y_new self) indices) ;;
  modify (fun s => set_labelled_X_new (labelled_X_new s ++ representative_X) s) ;;
  modify (fun s => set_labelled_y_new (labelled_y_new s ++ representative_y) s) ;;
  self <- get ;;
  assert_ (length (labelled_X_new self) =? length (labelled_y_new self))%nat ;;
  unlabelled_X <-
    or_raise IndexError (Np.delete (unlabelled_X_new self) indices) ;;
  modify (set_unlabelled_X_new unlabelled_X) ;;
  unlabelled_y <-
    or_raise IndexError (Np.delete (unlabelled_y_new self) indices) ;;
  modify (set_unlabelled_y_new unlabelled_y).

(** *** Metrics Reporter: [run_classification] *)

Definition run_classification (clf : classifier) : M (R * R * nat) :=
  self <- get ;;
  let X_test := unlabelled_X_new self in
  let X_train := labelled_X_new self in
  let y_test_pred := clf_predict clf X_test in
  let y_train_pred := clf_predict clf X_train in
  let y_test_true := unlabelled_y_new self in
  let y_train_true := labelled_y_new self in
  let f1 := f1_score_weighted y_test_true y_test_pred in
  let test_accuracy := accuracy_score y_test_true y_test_pred in
  let train_accuracy := accuracy_score y_train_true y_train_pred in
  let classes := count_unique (labelled_y_new self) in
  let df := {| Accuracy := test_accuracy;
               F1_Score := f1;
               Train_Accuracy := train_accuracy;
               Number_of_Annotations := length (labelled_X_new self);
               rec_damping := damping self;
               rec_preference := preference self;
               Train_type := training_type self;
               Classes := classes |} in
  modify (fun s => set_data (data s ++ [df]) s) ;;
  ret (f1, test_accuracy, length (labelled_X_new self)).

(** *** [train_model]: fit on the labelled set, then report *)

Definition train_model : M classifier :=
  self <- get ;;
  let X := labelled_X_new self in
  let y := labelled_y_new self in
  record_call CallFit ;;
  let clf := clf_fit X y in
  run_classification clf ;;
  ret clf.

(** *** Sampling strategies *)

(** [m[:, k]] for a list of rows of width [width]. *)
Definition column (width : nat) (k : Z) (m : list (list nat))
  : option (list nat) :=
  match Np.normalize_index width k with
  | None => None
  | Some c => Some (map (fun r => nth c r 0%nat) m)
  end.

(** [m[np.arange(len(m)), idx]] *)
Definition pick (m : list (list R)) (idx : list nat) : list R :=
  map (fun rj => nth (snd rj) (fst rj) 0%R) (combine m idx).

Fixpoint sub_arrays (a b : list R) : list R :=
  match a, b with
  | x :: a', y :: b' => (x - y)%R :: sub_arrays a' b'
  | _, _ => []
  end.

(** The margin of every row as [BvSB_Sampling] computes it; [ValueError]
    is [np.argmax] on an axis of size zero and [IndexError] is the column
    [-2] of an array with fewer than two columns. *)
Definition BvSB_diff (probalities : matrix) : M (list R) :=
  max_indices <-
    (if (n_classes probalities =? 0)%nat then raise ValueError
     else ret (map Argsort.argmax (rows probalities))) ;;
  second_max_indices <-
    or_raise IndexError
      (column (n_classes probalities) (-2)
              (map Argsort.argsort (rows probalities))) ;;
  let max_prob := pick (rows probalities) max_indices in
  let second_max_prob := pick (rows probalities) second_max_indices in
  ret (sub_arrays max_prob second_max_prob).

Definition BvSB_Sampling (probalities : matrix) (n : Z) : M (list Z) :=
  diff <- BvSB_diff probalities ;;
  let indices := Np.slice_to (Argsort.argsort diff) n in
  ret (map Z.of_nat indices).

(** [np.random.choice(pop_size, size, replace=False)] *)
Definition np_random_choice (pop_size : nat) (size : Z) : M (list Z) :=
  if (Z.of_nat pop_size <? size)%Z then raise ValueError
  else if (size <? 0)%Z then raise ValueError
  else
    self <- get ;;
    let (perm, g) := rng_permutation (np_random self) pop_size in
    modify (set_np_random g) ;;
    ret (map Z.of_nat (Np.slice_to perm size)).

Definition Random_sampling (n : Z) : M (list Z) :=
  self <- get ;;
  np_random_choice (length (unlabelled_X_new self)) n.

(** Python's [sum(k_)]: a left fold from [0]. *)
Definition py_sum (k_ : list R) : R := fold_left Rplus k_ 0%R.

Definition entropy_of (probalities : matrix) (i : nat) : R :=
  let k_ := map (fun k => let p := nth k (nth i (rows probalities) []) 0%R in
                          (p * ln p)%R)
                (seq 0 (n_classes probalities)) in
  (- py_sum k_)%R.

(** The loop of [Entropy_Sampling] (the vectorised value computed just
    before it is overwritten by the loop and is not used). *)
Definition entropy_list (probalities : matrix) : list R :=
  map (entropy_of probalities) (seq 0 (n_samples probalities)).

Definition Entropy_Sampling (probalities : matrix) (n : Z) : M (list Z) :=
  let entropy := entropy_list probalities in
  assert_ (length entropy =? n_samples probalities)%nat ;;
  let indices := Np.slice_from (Argsort.argsort entropy) (- n) in
  ret (map Z.of_nat indices).

(** *** Phase 1: novelty detection and clustering *)

(** [novel_mask_i] for one label: fit on that label's labelled rows and
    flag every unlabelled row predicted [-1]. *)
Definition novel_mask_of (self : OCluDAL) (lbl : label) : list bool :=
  let svm :=
    ocsvm_fit (Np.compress (map (String.eqb lbl) (labelled_y_new self))
                           (labelled_X_new self)) in
  map (fun x => (ocsvm_predict svm x =? -1)%Z) (unlabelled_X_new self).

Definition masks_of (self : OCluDAL) : list (list bool) :=
  map (novel_mask_of self) (unique_labels self).

Fixpoint and_arrays (a b : list bool) : list bool :=
  match a, b with
  | x :: a', y :: b' => (x && y) :: and_arrays a' b'
  | _, _ => []
  end.

(** [np.all(masks, axis=0)] for a non-empty list of equally long masks;
    for an empty list NumPy returns the scalar [True], here [None]. *)
Definition all_axis0 (masks : list (list bool)) : option (list bool) :=
  match masks with
  | [] => None
  | m :: rest => Some (fold_left and_arrays rest m)
  end.

Fixpoint first_match (sample : row) (pos : nat) (X : list row) : option nat :=
  match X with
  | [] => None
  | x :: rest =>
      if row_eq_dec x sample then Some pos
      else first_match sample (S pos) rest
  end.

(** [np.where((X == sample).all(axis=1))[0][0]] for every exemplar. *)
Fixpoint representative_indices_of (X : list row) (representative_X : list row)
  : M (list Z) :=
  match representative_X with
  | [] => ret []
  | sample :: rest =>
      i <- or_raise IndexError (first_match sample 0 X) ;;
      others <- representative_indices_of X rest ;;
      ret (Z.of_nat i :: others)
  end.

(** The body of the [while] loop of [step1]; [fuel] is
    [max_iter - iter_count].  With no label at all the mask is the scalar
    [True], [novel_X] gets a third axis and the clustering rejects it. *)
Fixpoint step1_loop (fuel : nat) (max_samples : Z) : M unit :=
  match fuel with
  | O => ret tt
  | S fuel' =>
      self <- get ;;
      if (Z.of_nat (length (labelled_X_new self)) <? max_samples)%Z then
        match all_axis0 (masks_of self) with
        | None => record_call CallCluster ;; raise ValueError
        | Some novel_mask =>
            let novel_X := Np.compress novel_mask (unlabelled_X_new self) in
            if (0 <? length novel_X)%nat then
              record_call CallCluster ;;
              let representative_X :=
                ap_cluster_centers (damping self) (preference self) novel_X in
              representative_indices <-
                representative_indices_of (unlabelled_X_new self)
                                          representative_X ;;
              oracle_annotations representative_indices ;;
              train_model ;;
              step1_loop fuel' max_samples
            else ret tt
        end
      else ret tt
  end.

Definition step1 (max_iter max_samples : Z) : M unit :=
  train_model ;;
  modify (set_training_type "AP") ;;
  step1_loop (Z.to_nat max_iter) max_samples.

(** *** Phase 2: uncertainty sampling *)

Definition select_batch (sampling_type : string) (probalities : matrix)
           (n : Z) : M (list Z) :=
  if (sampling_type =? "BvSB")%string then BvSB_Sampling probalities n
  else if (sampling_type =? "Random")%string then Random_sampling n
  else if (sampling_type =? "Entropy")%string
       then Entropy_Sampling probalities n
       else raise UnboundLocalError.

(** The [while] loop of [step2]; [fuel] is [max_iter + 1 - iter] and
    [num_samples] is always the current [len(self.labelled_X_new)]. *)
Fixpoint step2_loop (fuel : nat) (n max_samples : Z) (sampling_type : string)
  : M unit :=
  match fuel with
  | O => ret tt
  | S fuel' =>
      self <- get ;;
      if (Z.of_nat (length (labelled_X_new self)) <? max_samples)%Z then
        clf <- train_model ;;
        run_classification clf ;;
        self <- get ;;
        let probalities := clf_predict_proba clf (unlabelled_X_new self) in
        indices <- select_batch sampling_type probalities n ;;
        oracle_annotations indices ;;
        step2_loop fuel' n max_samples sampling_type
      else ret tt
  end.

Definition step2 (max_iter n max_samples : Z) (sampling_type : string)
  : M classifier :=
  modify (set_training_type "BvSB") ;;
  step2_loop (Z.to_nat (max_iter + 1)) n max_samples sampling_type ;;
  clf <- train_model ;;
  run_classification clf ;;
  ret clf.

End Methods.

(** ** What the specification talks about *)

Section Notions.
Context {sk : Collaborators}.

(** The two pairs of parallel arrays have matching lengths. *)
Definition lockstep (s : OCluDAL) : Prop :=
  length (labelled_X_new s) = length (labelled_y_new s) /\
  length (unlabelled_X_new s) = length (unlabelled_y_new s).

Definition pool_size (s : OCluDAL) : nat :=
  (length (labelled_X_new s) + length (unlabelled_X_new s))%nat.

Definition sizes_sum_to_dataset (s : OCluDAL) : Prop :=
  pool_size s = length (df_main s).

(** The pool invariant of the specification. *)
Definition pool_invariant (s : OCluDAL) : Prop :=
  lockstep s /\ sizes_sum_to_dataset s.

(** What the loops need from NumPy's generator and from the clustering:
    [permutation] draws a permutation, and the exemplars are pairwise
    different rows. *)
Definition generator_draws_permutations : Prop :=
  forall g N, Permutation (seq 0 N) (fst (rng_permutation g N)).

Definition exemplars_are_distinct : Prop :=
  forall d p X, NoDup (ap_cluster_centers d p X).

(** Neither the dataset nor any of the four pool arrays differs. *)
Definition same_pool (s s' : OCluDAL) : Prop :=
  df_main s' = df_main s /\
  labelled_X_new s' = labelled_X_new s /\
  labelled_y_new s' = labelled_y_new s /\
  unlabelled_X_new s' = unlabelled_X_new s /\
  unlabelled_y_new s' = unlabelled_y_new s.

(** The object after a successful [oracle_annotations] on the (normalised)
    positions [ks]. *)
Definition annotated (ks : list nat) (s : OCluDAL) : OCluDAL :=
  set_unlabelled_y_new (Np.keep_from 0 ks (unlabelled_y_new s))
    (set_unlabelled_X_new (Np.keep_from 0 ks (unlabelled_X_new s))
      (set_labelled_y_new
         (labelled_y_new s ++
          map (fun k => nth k (unlabelled_y_new s) EmptyString) ks)
         (set_labelled_X_new
            (labelled_X_new s ++
             map (fun k => nth k (unlabelled_X_new s) []) ks)
            (set_calls (calls s ++ [CallAnnotate]) s)))).

(** The detector of label [lbl] puts row [x] outside that label's support:
    the one-class SVM fitted on the labelled rows of [lbl] predicts [-1]. *)
Definition flagged_by (s : OCluDAL) (lbl : label) (x : row) : bool :=
  (ocsvm_predict
     (ocsvm_fit (Np.compress (map (String.eqb lbl) (labelled_y_new s))
                             (labelled_X_new s))) x =? -1)%Z.

Definition count_calls (c : call) (l : list call) : nat :=
  length (filter (fun c' => match c, c' with
                            | CallFit, CallFit => true
                            | CallCluster, CallCluster => true
                            | CallAnnotate, CallAnnotate => true
                            | _, _ => false
                            end) l).

(** [s'] extends the results table and the call log of [s], with [per_fit]
    new records for every new classifier fit. *)
Definition grows_by (per_fit : nat) (s s' : OCluDAL) : Prop :=
  exists added newcalls,
    data s' = data s ++ added /\
    calls s' = calls s ++ newcalls /\
    length added = (per_fit * count_calls CallFit newcalls)%nat.
End Notions.

(** An annotation batch of positions of an array of [len] rows. *)
Definition in_range (len : nat) (indices : list Z) : Prop :=
  Forall (fun i => 0 <= i < Z.of_nat len)%Z indices.

Definition numpy_in_range (len : nat) (indices : list Z) : Prop :=
  Forall (fun i => - Z.of_nat len <= i < Z.of_nat len)%Z indices.

(** The position a NumPy index denotes in an axis of [len] entries. *)
Definition position (len : nat) (i : Z) : nat :=
  if (i <? 0)%Z then Z.to_nat (i + Z.of_nat len) else Z.to_nat i.

(** The rows at the given positions, in the order given. *)
Definition rows_at {A : Type} (d : A) (arr : list A) (indices : list Z)
  : list A :=
  map (fun i => nth (Z.to_nat i) arr d) indices.

(** The rows at the positions that are not given, by increasing position. *)
Definition rows_kept {A : Type} (d : A) (arr : list A) (indices : list Z)
  : list A :=
  map (fun p => nth p arr d)
      (filter (fun p => negb (existsb (Z.eqb (Z.of_nat p)) indices))
              (seq 0 (length arr))).

(** The order of positions by their key. *)
Definition key_le (key : nat -> R) (a b : nat) : Prop := (key a <= key b)%R.

(** Position [p] is not among the deleted positions [ks]. *)
Definition keepb (ks : list nat) (p : nat) : bool :=
  negb (existsb (Nat.eqb p) ks).

(** The margin [BvSB_Sampling] computes for one row: the entry at the
    [argmax] minus the entry at the last but one position of the [argsort]. *)
Definition row_margin (r : list R) : R :=
  (nth (Argsort.argmax r) r 0 -
   nth (nth (length r - 2) (Argsort.argsort r) 0%nat) r 0)%R.

(** [top1] and [top2] are the highest and the second-highest entry of [r]
    (equal when the highest value occurs twice). *)
Definition top_two (r : list R) (top1 top2 : R) : Prop :=
  exists i j : nat,
    i <> j /\ (i < length r)%nat /\ (j < length r)%nat /\
    nth i r 0%R = top1 /\ nth j r 0%R = top2 /\
    (forall k, (k < length r)%nat -> (nth k r 0 <= top1)%R) /\
    (forall k, (k < length r)%nat -> k <> i -> (nth k r 0 <= top2)%R).

Definition is_margin (r : list R) (m : R) : Prop :=
  exists top1 top2, top_two r top1 top2 /\ m = (top1 - top2)%R.

(** Shannon entropy [- sum p * log p] of a row. *)
Definition shannon_entropy (r : list R) : R :=
  (- fold_right Rplus 0 (map (fun p => p * ln p) r))%R.

Definition key_at (v : list R) (i : Z) : R := nth (Z.to_nat i) v 0%R.

(** [idx] are [n] distinct positions of [v], none of them with a larger
    (respectively smaller) value than a position left out. *)
Definition n_smallest (v : list R) (n : Z) (idx : list Z) : Prop :=
  Z.of_nat (length idx) = n /\ NoDup idx /\ in_range (length v) idx /\
  forall i j, In i idx -> (0 <= j < Z.of_nat (length v))%Z -> ~ In j idx ->
              (key_at v i <= key_at v j)%R.

Definition n_largest (v : list R) (n : Z) (idx : list Z) : Prop :=
  Z.of_nat (length idx) = n /\ NoDup idx /\ in_range (length v) idx /\
  forall i j, In i idx -> (0 <= j < Z.of_nat (length v))%Z -> ~ In j idx ->
              (key_at v j <= key_at v i)%R.

Definition positive_matrix (m : matrix) : Prop :=
  Forall (Forall (fun p => (0 < p)%R)) (rows m).

(** ** Fixed inputs for the closed examples *)

(** The probability matrix of the specification's examples. *)
Definition example_probabilities : matrix :=
  Matrix 2 [[9/10; 1/10]; [5/10; 5/10]; [6/10; 4/10]]%R.


(** A collaborator family for the closed examples: a classifier that answers
    one label and even odds, a detector that flags the rows starting with a
    negative number, a clustering that keeps the first row, and a generator
    with two states that draws the identity permutation in one and the
    reversed one in the other. *)
#[local] Instance toy : Collaborators := {|
  classifier := unit;
  clf_fit := fun _ _ => tt;
  clf_predict := fun _ X => map (fun _ => "a"%string) X;
  clf_predict_proba := fun _ X => Matrix 2 (map (fun _ => [1/2; 1/2]%R) X);
  f1_score_weighted := fun _ _ => 0%R;
  accuracy_score := fun _ _ => 0%R;
  one_class_svm := unit;
  ocsvm_fit := fun _ => tt;
  ocsvm_predict := fun _ x => match x with
                              | [] => 1%Z
                              | v :: _ => if Rlt_dec v 0 then (-1)%Z else 1%Z
                              end;
  ap_cluster_centers := fun _ _ X => firstn 1 X;
  random_state := bool;
  rng_permutation := fun g N => (if g then rev (seq 0 N) else seq 0 N, negb g)
|}.

Definition toy_pool : @OCluDAL toy := {|
  df_main := [([1], "a"); ([2], "b"); ([3], "a"); ([4], "b")]%R%string;
  labelled_X_new := [[1]]%R;
  labelled_y_new := ["a"%string];
  unlabelled_X_new := [[2]; [3]; [4]]%R;
  unlabelled_y_new := ["b"; "a"; "b"]%string;
  unique_labels := ["a"%string];
  data := [];
  damping := (3/4)%R;
  preference := (-180)%R;
  training_type := "Random"%string;
  np_random := false;
  calls := []
|}.

(** ** Before the loops: loading, splitting and standardising *)

(** A data frame as [pd.read_csv] gives it: the names of the numeric columns
    and, for every row, the values of those columns and the entry of the
    [Label] column.  Its index is the range of its positions. *)
Record DataFrame : Type := { columns : list string; records : list (row * label) }.

(** The exceptions of the set-up methods: those of the loops, the [KeyError]
    of pandas and the [AttributeError] of a field not assigned yet. *)
Inductive setup_exn : Type :=
| Core (e : exn)
| KeyError
| AttributeError.

(** [StandardScaler]: parameters fitted on a matrix, applied row by row.
    It is taken to accept every matrix; scikit-learn rejects one without
    rows. *)
Class Preprocessor : Type := {
  scaler : Type;
  scaler_fit : list row -> scaler;
  scaler_apply : scaler -> row -> row
}.

(** [df.iloc[indices]]: rows by position, as NumPy indexes. *)
Definition iloc (df : DataFrame) (indices : list Z) : option DataFrame :=
  match Np.take (records df) indices with
  | None => None
  | Some rs => Some {| columns := columns df; records := rs |}
  end.

(** [df.drop(labels)] on a frame whose index is the range of its positions:
    every label has to be in the index ([None] is [KeyError]); the rows with
    the other labels stay, in their order. *)
Definition drop_rows (df : DataFrame) (labels : list Z) : option DataFrame :=
  if forallb (fun i => (0 <=? i) && (i <? Z.of_nat (length (records df))))%Z
             labels
  then Some {| columns := columns df;
               records := Np.keep_from 0 (map Z.to_nat labels) (records df) |}
  else None.

(** [name in df.columns] *)
Definition has_column (df : DataFrame) (name : string) : bool :=
  existsb (String.eqb name) (columns df).

(** [df.drop(names, axis=1)] for names that are columns of [df]. *)
Definition drop_columns (df : DataFrame) (names : list string) : DataFrame :=
  let mask := map (fun c => negb (existsb (String.eqb c) names)) (columns df) in
  {| columns := Np.compress mask (columns df);
     records := map (fun r => (Np.compress mask (fst r), snd r)) (records df) |}.

(** [np.unique] on labels: the distinct values in increasing order. *)
Fixpoint insert_unique (x : label) (l : list label) : list label :=
  match l with
  | [] => [x]
  | y :: rest =>
      match OrdersEx.String_as_OT.compare x y with
      | Lt => x :: l
      | Eq => l
      | Gt => y :: insert_unique x rest
      end
  end.

Definition np_unique (y : list label) : list label :=
  fold_right insert_unique [] y.

Section Setup.
Context {sk : Collaborators} {pp : Preprocessor}.

(** The object between [__init__] and the loops: [labelled] and [unlabelled]
    are assigned by [initialise_data]. *)
Record Setup : Type := {
  su_df_main : DataFrame;
  su_annotations : Z;
  su_damping : R;
  su_preference : R;
  su_labelled : option DataFrame;
  su_unlabelled : option DataFrame;
  su_np_random : random_state
}.

(** [__init__] on the frame read from [file_path]. *)
Definition init (df_main : DataFrame) (annotations : Z) (damping preference : R)
           (g : random_state) : Setup :=
  {| su_df_main := df_main; su_annotations := annotations;
     su_damping := damping; su_preference := preference;
     su_labelled := None; su_unlabelled := None; su_np_random := g |}.

(** [np.random.choice(a, size, replace=False)] for an array [a]: the entries
    of [a] at a prefix of a permutation of its positions. *)
Definition random_choice_from (g : random_state) (a : list Z) (size : Z)
  : setup_exn + list Z * random_state :=
  if (Z.of_nat (length a) <? size)%Z then inl (Core ValueError)
  else if (size <? 0)%Z then inl (Core ValueError)
  else
    let (perm, g') := rng_permutation g (length a) in
    inr (map (fun i => nth i a 0%Z) (Np.slice_to perm size), g').

(** [np.random.choice(pop_size, size, replace=False)] *)
Definition random_choice (g : random_state) (pop_size : nat) (size : Z)
  : setup_exn + list Z * random_state :=
  if (Z.of_nat pop_size <? size)%Z then inl (Core ValueError)
  else if (size <? 0)%Z then inl (Core ValueError)
  else
    let (perm, g') := rng_permutation g pop_size in
    inr (map Z.of_nat (Np.slice_to perm size), g').

(** [initialise_data]: the split of the frame.  The check that the two
    parts add up to the frame is caught and only printed, so it has no
    effect; the listing of the results directory, the output name and the
    construction of the classifier are left out. *)
Definition initialise_data (indices : option (list Z)) (su : Setup)
  : setup_exn + Setup :=
  let drawn :=
    match indices with
    | Some ix => inr (ix, su_np_random su)
    | None => random_choice (su_np_random su)
                            (length (records (su_df_main su)))
                            (su_annotations su)
    end in
  match drawn with
  | inl e => inl e
  | inr (ix, g) =>
      if (Z.of_nat (length ix) =? su_annotations su)%Z then
        match iloc (su_df_main su) ix with
        | None => inl (Core IndexError)
        | Some labelled =>
            match drop_rows (su_df_main su) ix with
            | None => inl KeyError
            | Some unlabelled =>
                let both := has_column labelled "Subject"
                            && has_column labelled "Index" in
                let labelled' :=
                  if both then drop_columns labelled ["Subject"; "Index"]%string
                  else labelled in
                let unlabelled' :=
                  if both then drop_columns unlabelled ["Subject"; "Index"]%string
                  else unlabelled in
                inr {| su_df_main := su_df_main su;
                       su_annotations := su_annotations su;
                       su_damping := su_damping su;
                       su_preference := su_preference su;
                       su_labelled := Some labelled';
                       su_unlabelled := Some unlabelled';
                       su_np_random := g |}
            end
        end
      else inl (Core AssertionError)
  end.

(** [preprocessing]: the scaler is fitted on the unlabelled features and
    applied to both parts; the object it leaves is the one the loops work
    on, with the empty table and the tag ['Random'] of [__init__]. *)
Definition preprocessing (su : Setup) : setup_exn + OCluDAL :=
  match su_unlabelled su, su_labelled su with
  | Some unlabelled, Some labelled =>
      let sc := scaler_fit (map fst (records unlabelled)) in
      let unlabelled_X_original :=
        map (scaler_apply sc) (map fst (records unlabelled)) in
      let labelled_X_original :=
        map (scaler_apply sc) (map fst (records labelled)) in
      let unlabelled_y_original := map snd (records unlabelled) in
      let labelled_y_original := map snd (records labelled) in
      inr {| df_main := records (su_df_main su);
             labelled_X_new := labelled_X_original;
             labelled_y_new := labelled_y_original;
             unlabelled_X_new := unlabelled_X_original;
             unlabelled_y_new := unlabelled_y_original;
             unique_labels := np_unique labelled_y_original;
             data := [];
             damping := su_damping su;
             preference := su_preference su;
             training_type := "Random";
             np_random := su_np_random su;
             calls := [] |}
  | _, _ => inl AttributeError
  end.

(** The positions of the rows labelled ['Standing'] or ['Walking Forward']:
    the index of the filtered frame in the script at the end of the file. *)
Fixpoint positions_labelled (pos : nat) (rs : list (row * label)) : list Z :=
  match rs with
  | [] => []
  | r :: rest =>
      if ((snd r =? "Standing") || (snd r =? "Walking Forward"))%string
      then Z.of_nat pos :: positions_labelled (S pos) rest
      else positions_labelled (S pos) rest
  end.

(** The script: ten annotations drawn among those rows, the split, the
    scaling, one round of [step1] and [step2] with batches of five up to
    1500 labelled rows.  Saving the classifier is left out. *)
Definition main (df : DataFrame) (g : random_state)
  : setup_exn + outcome classifier :=
  let annotations := 10%Z in
  let indices := positions_labelled 0 (records df) in
  match random_choice_from g indices annotations with
  | inl e => inl e
  | inr (indices, g') =>
      let OC := init df annotations (75 / 100) (-180) g' in
      match initialise_data (Some indices) OC with
      | inl e => inl e
      | inr OC1 =>
          match preprocessing OC1 with
          | inl e => inl e
          | inr OC2 =>
              inr ((step1 1 800 ;; step2 1000 5 1500 "BvSB") OC2)
          end
      end
  end.

End Setup.

(** Fixed inputs for the set-up examples: a scaler that leaves rows as they
    are and a frame of four rows with the two identifier columns. *)
#[local] Instance toy_scaler : Preprocessor := {|
  scaler := unit;
  scaler_fit := fun _ => tt;
  scaler_apply := fun _ r => r
|}.

Definition toy_frame : DataFrame := {|
  columns := ["Subject"; "x"; "Index"]%string;
  records := [([1; 10; 0], "a"); ([1; 20; 1], "b");
              ([2; 30; 2], "a"); ([2; 40; 3], "b")]%R%string
|}.

(** The default of a look-up outside a frame. *)
Definition no_record : row * label := ([], EmptyString).

Definition toy_setup : @Setup toy := init toy_frame 2 (3 / 4) (-180) false.

(** A frame with ten rows of the two starting activities and two others. *)
Definition activity_frame : DataFrame := {|
  columns := ["x"%string];
  records := [([0], "Standing"); ([1], "Jumping Up"); ([2], "Standing");
              ([3], "Walking Forward"); ([4], "Standing"); ([5], "Standing");
              ([6], "Walking Forward"); ([7], "Standing"); ([8], "Sitting");
              ([9], "Standing"); ([10], "Walking Forward");
              ([11], "Standing")]%R%string
|}.

(** Every row of the frame has one value per column. *)
Definition wf_frame (df : DataFrame) : Prop :=
  Forall (fun r => length (fst r) = length (columns df)) (records df).

(** The frame without its two identifier columns when it has both, the frame
    itself otherwise: what [initialise_data] keeps of a part. *)
Definition without_identifiers (df : DataFrame) : DataFrame :=
  if has_column df "Subject" && has_column df "Index"
  then drop_columns df ["Subject"; "Index"]%string
  else df.

(** One of the two labels the script draws its first annotations from. *)
Definition starting_label (l : label) : Prop :=
  l = "Standing"%string \/ l = "Walking Forward"%string.

(** ** What a run may change *)

Section Progress.
Context {sk : Collaborators}.

(** The labelled arrays of [s'] are those of [s] with rows appended. *)
Definition labelled_extended (s s' : OCluDAL) : Prop :=
  exists new_X new_y,
    labelled_X_new s' = labelled_X_new s ++ new_X /\
    labelled_y_new s' = labelled_y_new s ++ new_y.

(** The fields no loop assigns. *)
Definition settings_kept (s s' : OCluDAL) : Prop :=
  df_main s' = df_main s /\ unique_labels s' = unique_labels s /\
  damping s' = damping s /\ preference s' = preference s.

Definition annotations_le (a b : IterationRecord) : Prop :=
  (Number_of_Annotations a <= Number_of_Annotations b)%nat.

(** From [s] to [s'] the tag is the same, and the records appended carry it
    together with labelled sizes between those of [s] and of [s'], in
    increasing order. *)
Definition progress (s s' : OCluDAL) : Prop :=
  labelled_extended s s' /\ settings_kept s s' /\
  (length (unlabelled_X_new s') <= length (unlabelled_X_new s))%nat /\
  training_type s' = training_type s /\
  exists added,
    data s' = data s ++ added /\
    Forall (fun r => (length (labelled_X_new s) <= Number_of_Annotations r
                      <= length (labelled_X_new s'))%nat /\
                     Train_type r = training_type s /\
                     rec_damping r = damping s /\
                     rec_preference r = preference s) added /\
    StronglySorted annotations_le added.

End Progress.

(** * Properties *)

(** ** NumPy indexing *)

Section NpFacts.
Context {A : Type}.
Implicit Types (arr : list A) (indices : list Z) (ks : list nat).

Lemma normalize_index_bound len i k :
  Np.normalize_index len i = Some k -> (k < len)%nat.
Proof.
  unfold Np.normalize_index.
  destruct ((0 <=? i) && (i <? Z.of_nat len))%Z eqn:E1.
  - intros [= <-]. apply andb_prop in E1 as [H1 H2].
    apply Z.leb_le in H1. apply Z.ltb_lt in H2. lia.
  - destruct ((- Z.of_nat len <=? i) && (i <? 0))%Z eqn:E2; [|discriminate].
    intros [= <-]. apply andb_prop in E2 as [H1 H2].
    apply Z.leb_le in H1. apply Z.ltb_lt in H2. lia.
Qed.

Lemma normalize_index_position len i :
  (0 <= i < Z.of_nat len)%Z -> Np.normalize_index len i = Some (Z.to_nat i).
Proof.
  intros H. unfold Np.normalize_index.
  replace (0 <=? i)%Z with true by (symmetry; apply Z.leb_le; lia).
  replace (i <? Z.of_nat len)%Z with true by (symmetry; apply Z.ltb_lt; lia).
  reflexivity.
Qed.

Lemma normalize_index_none len i :
  Np.normalize_index len i = None <->
  ~ (- Z.of_nat len <= i < Z.of_nat len)%Z.
Proof.
  unfold Np.normalize_index.
  destruct (0 <=? i)%Z eqn:E1; destruct (i <? Z.of_nat len)%Z eqn:E2;
    destruct (- Z.of_nat len <=? i)%Z eqn:E3; destruct (i <? 0)%Z eqn:E4;
    simpl; split; try discriminate; try tauto; intros H;
    try apply Z.leb_le in E1; try apply Z.leb_gt in E1;
    try apply Z.ltb_lt in E2; try apply Z.ltb_ge in E2;
    try apply Z.leb_le in E3; try apply Z.leb_gt in E3;
    try apply Z.ltb_lt in E4; try apply Z.ltb_ge in E4;
    try lia; exfalso; apply H; lia.
Qed.

Lemma normalize_all_positions len indices :
  in_range len indices ->
  Np.normalize_all len indices = Some (map Z.to_nat indices).
Proof.
  induction 1 as [|i rest Hi _ IH]; simpl; [reflexivity|].
  rewrite (normalize_index_position len Hi), IH. reflexivity.
Qed.

Lemma normalize_all_bound len indices ks :
  Np.normalize_all len indices = Some ks ->
  Forall (fun k => (k < len)%nat) ks /\ length ks = length indices.
Proof.
  revert ks. induction indices as [|i rest IH]; simpl; intros ks.
  - intros [= <-]. split; [constructor | reflexivity].
  - destruct (Np.normalize_index len i) as [k|] eqn:Ek; [|discriminate].
    destruct (Np.normalize_all len rest) as [ks'|]; [|discriminate].
    intros [= <-]. destruct (IH ks' eq_refl) as [F L].
    split; [constructor; eauto using normalize_index_bound | simpl; lia].
Qed.

Lemma normalize_all_none len indices :
  Np.normalize_all len indices = None <-> ~ numpy_in_range len indices.
Proof.
  unfold numpy_in_range. induction indices as [|i rest IH]; simpl.
  - split; [discriminate | intros H; exfalso; apply H; constructor].
  - destruct (Np.normalize_index len i) as [k|] eqn:Ek.
    + assert (Hi : (- Z.of_nat len <= i < Z.of_nat len)%Z).
      { destruct (Z_le_dec (- Z.of_nat len) i);
          destruct (Z_lt_dec i (Z.of_nat len)); try lia;
          assert (Np.normalize_index len i = None)
            by (apply normalize_index_none; lia); congruence. }
      destruct (Np.normalize_all len rest) as [ks|].
      * split; [discriminate|]. intros H. exfalso. apply H.
        constructor; [exact Hi|].
        destruct (Forall_dec (fun i => (- Z.of_nat len <= i < Z.of_nat len)%Z))
          with (l := rest) as [F|F]; [| exact F |].
        { intros x. destruct (Z_le_dec (- Z.of_nat len) x);
            destruct (Z_lt_dec x (Z.of_nat len)); (left; lia) || (right; lia). }
        exfalso. apply IH in F. discriminate.
      * split; [intros _|reflexivity]. intros F. inversion F; subst.
        destruct IH as [IH _]. apply IH; auto.
    + split; [intros _|reflexivity]. intros F. inversion F; subst.
      apply normalize_index_none in Ek. auto.
Qed.

Lemma normalize_all_some len indices :
  numpy_in_range len indices ->
  exists ks, Np.normalize_all len indices = Some ks.
Proof.
  intros H. destruct (Np.normalize_all len indices) as [ks|] eqn:E; eauto.
  apply normalize_all_none in E. contradiction.
Qed.

Lemma gather_some (d : A) arr ks :
  Forall (fun k => (k < length arr)%nat) ks ->
  Np.gather arr ks = Some (map (fun k => nth k arr d) ks).
Proof.
  induction 1 as [|k rest Hk _ IH]; simpl; [reflexivity|].
  rewrite (nth_error_nth' arr d Hk), IH. reflexivity.
Qed.

(** Indexing succeeds exactly on NumPy's index range. *)
Lemma take_some (d : A) arr indices ks :
  Np.normalize_all (length arr) indices = Some ks ->
  Np.take arr indices = Some (map (fun k => nth k arr d) ks).
Proof.
  intros E. unfold Np.take. rewrite E.
  apply gather_some. apply (normalize_all_bound _ _ E).
Qed.

Lemma take_none arr indices :
  Np.normalize_all (length arr) indices = None -> Np.take arr indices = None.
Proof. intros E. unfold Np.take. now rewrite E. Qed.

Lemma keep_from_filter (d : A) ks arr pos :
  Np.keep_from pos ks arr =
  map (fun p => nth (p - pos) arr d) (filter (keepb ks) (seq pos (length arr))).
Proof.
  revert pos. induction arr as [|x rest IH]; intros pos; [reflexivity|].
  cbn [Np.keep_from length seq filter]. rewrite IH.
  assert (E : map (fun p => nth (p - S pos) rest d)
                  (filter (keepb ks) (seq (S pos) (length rest))) =
              map (fun p => nth (p - pos) (x :: rest) d)
                  (filter (keepb ks) (seq (S pos) (length rest)))).
  { apply map_ext_in. intros p Hp. apply filter_In in Hp as [Hp _].
    apply in_seq in Hp. replace (p - pos)%nat with (S (p - S pos)) by lia.
    reflexivity. }
  unfold keepb at 3.
  destruct (existsb (Nat.eqb pos) ks); cbn [negb map].
  - exact E.
  - rewrite Nat.sub_diag. cbn [nth]. f_equal. exact E.
Qed.

Lemma filter_split_length {B : Type} (f : B -> bool) (l : list B) :
  (length (filter f l) + length (filter (fun x => negb (f x)) l))%nat = length l.
Proof.
  induction l as [|x l IH]; simpl; [reflexivity|].
  destruct (f x); simpl; lia.
Qed.

(** Deleting distinct positions shortens the array by their number. *)
Lemma keep_from_length ks arr :
  NoDup ks -> Forall (fun k => (k < length arr)%nat) ks ->
  (length (Np.keep_from 0 ks arr) + length ks)%nat = length arr.
Proof.
  intros ND F.
  destruct arr as [|d arr'] eqn:Earr.
  - destruct ks as [|k ks']; [reflexivity|]. inversion F; subst. simpl in *. lia.
  - rewrite <- Earr in *. rewrite (keep_from_filter d), length_map.
    set (inb := fun p => existsb (Nat.eqb p) ks).
    assert (P : Permutation (filter inb (seq 0 (length arr))) ks).
    { apply NoDup_Permutation; [apply NoDup_filter, seq_NoDup | exact ND |].
      intros p. rewrite filter_In, in_seq. unfold inb. rewrite existsb_exists.
      split.
      - intros [_ [q [Hq E]]]. apply Nat.eqb_eq in E. now subst.
      - intros Hp. split.
        + rewrite Forall_forall in F. specialize (F p Hp). lia.
        + exists p. split; [exact Hp | apply Nat.eqb_refl]. }
    rewrite <- (Permutation_length P).
    pose proof (filter_split_length inb (seq 0 (length arr))) as S.
    rewrite length_seq in S.
    change (filter (keepb ks)) with (filter (fun x => negb (inb x))). lia.
Qed.

Lemma delete_some arr indices ks :
  Np.normalize_all (length arr) indices = Some ks ->
  Np.delete arr indices = Some (Np.keep_from 0 ks arr).
Proof. intros E. unfold Np.delete. now rewrite E. Qed.

Lemma existsb_positions len indices p :
  in_range len indices ->
  existsb (Nat.eqb p) (map Z.to_nat indices) =
  existsb (Z.eqb (Z.of_nat p)) indices.
Proof.
  intros F. induction F as [|i rest Hi _ IH]; simpl; [reflexivity|].
  rewrite IH. f_equal.
  destruct (Nat.eqb p (Z.to_nat i)) eqn:E1; destruct (Z.of_nat p =? i)%Z eqn:E2;
    try reflexivity.
  - apply Nat.eqb_eq in E1. apply Z.eqb_neq in E2. lia.
  - apply Nat.eqb_neq in E1. apply Z.eqb_eq in E2. lia.
Qed.

End NpFacts.

(** ** Pool Manager *)

Ltac run_method :=
  repeat (progress
    (unfold bind, ret, get, modify, raise, record_call, or_raise, assert_;
     cbn [labelled_X_new labelled_y_new unlabelled_X_new unlabelled_y_new
          unique_labels data damping preference training_type np_random calls
          df_main set_labelled_X_new set_labelled_y_new set_unlabelled_X_new
          set_unlabelled_y_new set_data set_training_type set_np_random
          set_calls])).

Section PoolFacts.
Context {sk : Collaborators}.
Implicit Types (s : OCluDAL) (indices : list Z).

Lemma oracle_annotations_ok s indices ks :
  lockstep s ->
  Np.normalize_all (length (unlabelled_X_new s)) indices = Some ks ->
  oracle_annotations indices s = Ok tt (annotated ks s).
Proof.
  intros [L U] E. unfold oracle_annotations. run_method.
  rewrite (take_some ([] : row) _ _ E).
  assert (E' := E). rewrite U in E'.
  rewrite (take_some (EmptyString : label) _ _ E').
  run_method. rewrite !length_app, !length_map, L, Nat.eqb_refl.
  rewrite (delete_some _ _ E). run_method.
  rewrite (delete_some _ _ E'). reflexivity.
Qed.

Lemma oracle_annotations_index_error s indices :
  Np.normalize_all (length (unlabelled_X_new s)) indices = None ->
  oracle_annotations indices s =
  Raise IndexError (set_calls (calls s ++ [CallAnnotate]) s).
Proof.
  intros E. unfold oracle_annotations. run_method.
  rewrite (take_none _ _ E). reflexivity.
Qed.

Lemma annotated_lockstep s ks :
  lockstep s -> NoDup ks ->
  Forall (fun k => (k < length (unlabelled_X_new s))%nat) ks ->
  lockstep (annotated ks s).
Proof.
  intros [L U] ND F. unfold lockstep, annotated. run_method. split.
  - rewrite !length_app, !length_map. lia.
  - pose proof (keep_from_length (unlabelled_X_new s) ND F).
    rewrite U in F.
    pose proof (keep_from_length (unlabelled_y_new s) ND F). lia.
Qed.

Lemma annotated_pool_size s ks :
  NoDup ks -> Forall (fun k => (k < length (unlabelled_X_new s))%nat) ks ->
  pool_size (annotated ks s) = pool_size s.
Proof.
  intros ND F. unfold pool_size, annotated. run_method.
  pose proof (keep_from_length (unlabelled_X_new s) ND F).
  rewrite length_app, length_map. lia.
Qed.

Lemma positions_NoDup len indices :
  in_range len indices -> NoDup indices -> NoDup (map Z.to_nat indices).
Proof.
  intros F ND. induction ND as [|i rest Hni ND IH]; simpl; [constructor|].
  inversion F as [|? ? Hi F']; subst. constructor; [|auto].
  intros Hin. apply in_map_iff in Hin as [j [Ej Hj]].
  rewrite Forall_forall in F'. specialize (F' j Hj).
  assert (j = i) by lia. subst. contradiction.
Qed.

End PoolFacts.

Section PoolClaims.
Context {sk : Collaborators}.
Implicit Types (s : OCluDAL) (indices : list Z).

Lemma same_pool_refl s : same_pool s s.
Proof. repeat split. Qed.

Lemma same_pool_trans s1 s2 s3 :
  same_pool s1 s2 -> same_pool s2 s3 -> same_pool s1 s3.
Proof.
  unfold same_pool. intros (A1 & A2 & A3 & A4 & A5) (B1 & B2 & B3 & B4 & B5).
  repeat split; congruence.
Qed.

Lemma run_classification_ok clf s :
  exists r out,
    run_classification clf s = Ok out (set_data (data s ++ [r]) s) /\
    Number_of_Annotations r = length (labelled_X_new s) /\
    Train_type r = training_type s /\
    Classes r = count_unique (labelled_y_new s).
Proof.
  unfold run_classification. run_method.
  eexists. eexists. split; [reflexivity|]. repeat split.
Qed.

Lemma train_model_ok s :
  exists r,
    train_model s =
    Ok (clf_fit (labelled_X_new s) (labelled_y_new s))
       (set_data (data s ++ [r]) (set_calls (calls s ++ [CallFit]) s)) /\
    Number_of_Annotations r = length (labelled_X_new s).
Proof.
  unfold train_model. run_method.
  destruct (run_classification_ok
              (clf_fit (labelled_X_new s) (labelled_y_new s))
              (set_calls (calls s ++ [CallFit]) s)) as (r & out & E & N & _).
  rewrite E. exists r. split; [reflexivity | exact N].
Qed.

Lemma BvSB_Sampling_state P n s : final_state (BvSB_Sampling P n s) = s.
Proof.
  unfold BvSB_Sampling, BvSB_diff. run_method.
  destruct (n_classes P =? 0)%nat; [reflexivity|].
  destruct (column (n_classes P) (-2) (map Argsort.argsort (rows P)));
    reflexivity.
Qed.

Lemma Entropy_Sampling_state P n s : final_state (Entropy_Sampling P n s) = s.
Proof.
  unfold Entropy_Sampling. run_method.
  destruct (length (entropy_list P) =? n_samples P)%nat; reflexivity.
Qed.

Lemma Random_sampling_pool n s :
  same_pool s (final_state (Random_sampling n s)).
Proof.
  unfold Random_sampling, np_random_choice. run_method.
  destruct (Z.of_nat (length (unlabelled_X_new s)) <? n)%Z;
    [apply same_pool_refl|].
  destruct (n <? 0)%Z; [apply same_pool_refl|].
  destruct (rng_permutation (np_random s) (length (unlabelled_X_new s))).
  run_method. repeat split.
Qed.

Lemma select_batch_pool st P n s :
  same_pool s (final_state (select_batch st P n s)).
Proof.
  unfold select_batch.
  destruct (st =? "BvSB")%string.
  { rewrite BvSB_Sampling_state. apply same_pool_refl. }
  destruct (st =? "Random")%string.
  { apply Random_sampling_pool. }
  destruct (st =? "Entropy")%string.
  { rewrite Entropy_Sampling_state. apply same_pool_refl. }
  apply same_pool_refl.
Qed.

Lemma keep_from_rows_kept {A : Type} (d : A) (arr : list A) indices :
  in_range (length arr) indices ->
  Np.keep_from 0 (map Z.to_nat indices) arr = rows_kept d arr indices.
Proof.
  intros F. rewrite (keep_from_filter d). unfold rows_kept.
  rewrite (filter_ext (keepb (map Z.to_nat indices))
             (fun p => negb (existsb (Z.eqb (Z.of_nat p)) indices))).
  - apply map_ext. intros p. now rewrite Nat.sub_0_r.
  - intros p. unfold keepb. now rewrite (existsb_positions p F).
Qed.

(** C2.  On a batch of positions of the unlabelled arrays,
    [oracle_annotations] returns with the labelled arrays equal to the
    previous ones followed by the rows and labels that were at those
    positions, in the order the positions were given, and with the
    unlabelled arrays equal to the rows and labels at the other positions,
    by increasing position. *)
Theorem annotate_moves_rows_in_order s indices :
  lockstep s -> NoDup indices ->
  in_range (length (unlabelled_X_new s)) indices ->
  exists s',
    oracle_annotations indices s = Ok tt s' /\
    labelled_X_new s' =
      labelled_X_new s ++ rows_at [] (unlabelled_X_new s) indices /\
    labelled_y_new s' =
      labelled_y_new s ++ rows_at EmptyString (unlabelled_y_new s) indices /\
    unlabelled_X_new s' = rows_kept [] (unlabelled_X_new s) indices /\
    unlabelled_y_new s' = rows_kept EmptyString (unlabelled_y_new s) indices.
Proof.
  intros L _ F. pose proof (normalize_all_positions F) as E.
  exists (annotated (map Z.to_nat indices) s).
  split; [now apply oracle_annotations_ok|].
  unfold annotated, rows_at. run_method. rewrite !map_map.
  repeat split.
  - now apply keep_from_rows_kept.
  - apply keep_from_rows_kept. destruct L as [_ U]. now rewrite <- U.
Qed.

End PoolClaims.

Section AllOrNothing.
Context {sk : Collaborators}.
Implicit Types (s : OCluDAL) (indices : list Z).

Lemma normalize_index_numpy len i :
  (- Z.of_nat len <= i < Z.of_nat len)%Z ->
  Np.normalize_index len i = Some (position len i).
Proof.
  intros H. unfold Np.normalize_index, position.
  destruct (i <? 0)%Z eqn:E.
  - apply Z.ltb_lt in E.
    replace (0 <=? i)%Z with false by (symmetry; apply Z.leb_gt; lia).
    replace (- Z.of_nat len <=? i)%Z with true
      by (symmetry; apply Z.leb_le; lia).
    reflexivity.
  - apply Z.ltb_ge in E.
    replace (0 <=? i)%Z with true by (symmetry; apply Z.leb_le; lia).
    replace (i <? Z.of_nat len)%Z with true
      by (symmetry; apply Z.ltb_lt; lia).
    reflexivity.
Qed.

Lemma normalize_all_numpy len indices :
  numpy_in_range len indices ->
  Np.normalize_all len indices = Some (map (position len) indices).
Proof.
  induction 1 as [|i rest Hi _ IH]; simpl; [reflexivity|].
  rewrite (normalize_index_numpy len Hi), IH. reflexivity.
Qed.

(** C3, as the code has it.  With the parallel arrays agreeing in length,
    [oracle_annotations] raises [IndexError] exactly when some index lies
    outside NumPy's range [-len <= i < len] of the unlabelled arrays, and
    then the dataset and the four arrays are as before; when every index
    is in that range it returns, repeated indices included, with the rows
    at the denoted positions appended to the labelled arrays in the order
    given and removed from the unlabelled arrays. *)
Theorem annotate_all_or_nothing s indices :
  lockstep s ->
  let len := length (unlabelled_X_new s) in
  (~ numpy_in_range len indices ->
   exists s', oracle_annotations indices s = Raise IndexError s' /\
              same_pool s s') /\
  (numpy_in_range len indices ->
   exists s',
     oracle_annotations indices s = Ok tt s' /\
     labelled_X_new s' =
       labelled_X_new s ++
       map (fun i => nth (position len i) (unlabelled_X_new s) []) indices /\
     labelled_y_new s' =
       labelled_y_new s ++
       map (fun i => nth (position len i) (unlabelled_y_new s) EmptyString)
           indices /\
     unlabelled_X_new s' =
       map (fun p => nth p (unlabelled_X_new s) [])
           (filter (keepb (map (position len) indices)) (seq 0 len)) /\
     unlabelled_y_new s' =
       map (fun p => nth p (unlabelled_y_new s) EmptyString)
           (filter (keepb (map (position len) indices)) (seq 0 len))).
Proof.
  intros L len. split.
  - intros H. apply normalize_all_none in H.
    eexists. split; [now apply oracle_annotations_index_error|].
    repeat split.
  - intros H. pose proof (normalize_all_numpy H) as E.
    exists (annotated (map (position len) indices) s).
    split; [now apply oracle_annotations_ok|].
    unfold annotated. run_method. rewrite !map_map.
    repeat split.
    + rewrite (keep_from_filter ([] : row)). fold len.
      apply map_ext. intros p. now rewrite Nat.sub_0_r.
    + rewrite (keep_from_filter (EmptyString : label)).
      destruct L as [_ U]. rewrite <- U. fold len.
      apply map_ext. intros p. now rewrite Nat.sub_0_r.
Qed.

End AllOrNothing.

(** C3 as stated fails: a repeated index is not rejected.  On the pool with
    unlabelled rows [[2]; [3]; [4]] the batch [[0; 0]] returns normally, the
    row [[2]] has been appended twice and removed once, and the two sizes no
    longer sum to the four rows of the dataset. *)
Lemma repeated_index_is_accepted :
  ~ NoDup [0; 0]%Z /\
  exists s',
    oracle_annotations [0; 0]%Z toy_pool = Ok tt s' /\
    labelled_X_new s' = [[1]; [2]; [2]]%R /\
    unlabelled_X_new s' = [[3]; [4]]%R /\
    (length (labelled_X_new s') + length (unlabelled_X_new s'))%nat = 5%nat /\
    length (df_main s') = 4%nat.
Proof.
  split.
  - intros ND. inversion ND as [|? ? Hn _]; subst. apply Hn. now left.
  - eexists. split; [reflexivity|]. repeat split.
Qed.

Lemma annotate_moves_rows_in_order_witness :
  exists s',
    oracle_annotations [2; 0]%Z toy_pool = Ok tt s' /\
    labelled_X_new s' =
      labelled_X_new toy_pool ++
      rows_at [] (unlabelled_X_new toy_pool) [2; 0]%Z /\
    labelled_y_new s' =
      labelled_y_new toy_pool ++
      rows_at EmptyString (unlabelled_y_new toy_pool) [2; 0]%Z /\
    unlabelled_X_new s' = rows_kept [] (unlabelled_X_new toy_pool) [2; 0]%Z /\
    unlabelled_y_new s' =
      rows_kept EmptyString (unlabelled_y_new toy_pool) [2; 0]%Z.
Proof.
  apply (@annotate_moves_rows_in_order toy toy_pool [2; 0]%Z).
  - split; reflexivity.
  - repeat constructor; simpl; intuition discriminate.
  - repeat constructor; simpl; lia.
Defined.

Lemma annotate_all_or_nothing_witness :
  (exists s', oracle_annotations [3]%Z toy_pool = Raise IndexError s' /\
              same_pool toy_pool s') /\
  (exists s', oracle_annotations [-1; 0]%Z toy_pool = Ok tt s' /\
              labelled_X_new s' = [[1]; [4]; [2]]%R /\
              labelled_y_new s' = ["a"; "b"; "b"]%string /\
              unlabelled_X_new s' = [[3]]%R /\
              unlabelled_y_new s' = ["a"%string]).
Proof.
  assert (L : lockstep toy_pool) by (split; reflexivity).
  split.
  - apply (@annotate_all_or_nothing toy toy_pool [3]%Z L).
    intros H. inversion H as [|? ? Hi _]; subst. simpl in Hi. lia.
  - destruct (@annotate_all_or_nothing toy toy_pool [-1; 0]%Z L) as [_ Hok].
    destruct Hok as (s' & E & LX & LY & UX & UY).
    { repeat constructor; simpl; lia. }
    exists s'. rewrite LX, LY, UX, UY. split; [exact E|].
    repeat split.
Defined.

(** ** Sorting facts *)

Section ArgsortFacts.
Variable key : nat -> R.

Lemma insert_perm i l : Permutation (i :: l) (Argsort.insert key i l).
Proof.
  induction l as [|j rest IH]; simpl; [apply Permutation_refl|].
  destruct (Rle_dec (key j) (key i)).
  - eapply perm_trans; [apply perm_swap|]. now apply perm_skip.
  - apply Permutation_refl.
Qed.

Lemma insert_sorted i l :
  StronglySorted (key_le key) l -> StronglySorted (key_le key) (Argsort.insert key i l).
Proof.
  induction 1 as [|j rest S IH F]; simpl.
  - constructor; constructor.
  - destruct (Rle_dec (key j) (key i)) as [Hle|Hgt].
    + constructor; [exact IH|].
      apply Forall_forall. intros x Hx.
      apply (Permutation_in _ (Permutation_sym (insert_perm i rest))) in Hx.
      destruct Hx as [<-|Hx]; [exact Hle|].
      rewrite Forall_forall in F. now apply F.
    + assert (Hij : key_le key i j) by (unfold key_le; lra).
      constructor; [now constructor|].
      constructor; [exact Hij|].
      apply Forall_forall. intros x Hx. rewrite Forall_forall in F.
      specialize (F x Hx). unfold key_le in *. lra.
Qed.

Lemma fold_insert_perm l acc :
  Permutation (l ++ acc)
              (fold_left (fun acc i => Argsort.insert key i acc) l acc).
Proof.
  revert acc. induction l as [|i rest IH]; intros acc; simpl.
  - apply Permutation_refl.
  - eapply perm_trans; [|apply IH].
    eapply perm_trans; [apply Permutation_middle|].
    apply Permutation_app_head. apply insert_perm.
Qed.

Lemma fold_insert_sorted l acc :
  StronglySorted (key_le key) acc ->
  StronglySorted (key_le key)
    (fold_left (fun acc i => Argsort.insert key i acc) l acc).
Proof.
  revert acc. induction l as [|i rest IH]; intros acc S; simpl; [exact S|].
  apply IH. now apply insert_sorted.
Qed.

Lemma sort_indices_perm len :
  Permutation (seq 0 len) (Argsort.sort_indices key len).
Proof.
  unfold Argsort.sort_indices.
  pose proof (fold_insert_perm (seq 0 len) []) as P.
  now rewrite app_nil_r in P.
Qed.

Lemma sort_indices_sorted len :
  StronglySorted (key_le key) (Argsort.sort_indices key len).
Proof. apply fold_insert_sorted. constructor. Qed.

Lemma sorted_app_le l1 l2 a b :
  StronglySorted (key_le key) (l1 ++ l2) -> In a l1 -> In b l2 -> key_le key a b.
Proof.
  induction l1 as [|x l1 IH]; simpl; intros S Ha Hb; [contradiction|].
  inversion S as [|? ? S' F]; subst.
  destruct Ha as [<-|Ha].
  - rewrite Forall_forall in F. apply F. apply in_or_app. now right.
  - now apply IH.
Qed.

Lemma sorted_nth l p q d :
  StronglySorted (key_le key) l -> (p < q)%nat -> (q < length l)%nat ->
  key_le key (nth p l d) (nth q l d).
Proof.
  intros S Hpq Hq.
  rewrite <- (firstn_skipn q l) in S.
  eapply sorted_app_le; [exact S| |].
  - rewrite <- (firstn_skipn q l) at 1.
    rewrite app_nth1 by (rewrite length_firstn; lia).
    apply nth_In. rewrite length_firstn. lia.
  - rewrite <- (firstn_skipn q l) at 1.
    rewrite app_nth2 by (rewrite length_firstn; lia).
    rewrite length_firstn. replace (q - Nat.min q (length l))%nat with 0%nat by lia.
    apply nth_In. rewrite length_skipn. lia.
Qed.

End ArgsortFacts.

Lemma NoDup_map_of_nat (l : list nat) : NoDup l -> NoDup (map Z.of_nat l).
Proof.
  induction 1 as [|x l Hn ND IH]; simpl; constructor; [|exact IH].
  intros H. apply in_map_iff in H as [y [E Hy]].
  apply Nat2Z.inj in E. subst. contradiction.
Qed.

Lemma In_firstn {A : Type} (k : nat) (l : list A) (a : A) :
  In a (firstn k l) -> In a l.
Proof.
  intros H. rewrite <- (firstn_skipn k l). apply in_or_app. now left.
Qed.

Lemma In_skipn {A : Type} (k : nat) (l : list A) (a : A) :
  In a (skipn k l) -> In a l.
Proof.
  intros H. rewrite <- (firstn_skipn k l). apply in_or_app. now right.
Qed.

Section ArgsortArray.
Variable v : list R.

Lemma argsort_perm : Permutation (seq 0 (length v)) (Argsort.argsort v).
Proof. apply sort_indices_perm. Qed.

Lemma argsort_length : length (Argsort.argsort v) = length v.
Proof.
  rewrite <- (Permutation_length argsort_perm). apply length_seq.
Qed.

Lemma argsort_NoDup : NoDup (Argsort.argsort v).
Proof.
  apply (Permutation_NoDup argsort_perm). apply seq_NoDup.
Qed.

Lemma argsort_In k : In k (Argsort.argsort v) <-> (k < length v)%nat.
Proof.
  split.
  - intros H. apply (Permutation_in _ (Permutation_sym argsort_perm)) in H.
    apply in_seq in H. lia.
  - intros H. apply (Permutation_in _ argsort_perm). apply in_seq. lia.
Qed.

Lemma argsort_sorted :
  StronglySorted (key_le (fun i => nth i v 0%R)) (Argsort.argsort v).
Proof. apply sort_indices_sorted. Qed.

(** Any prefix of the sorted positions holds distinct positions whose values
    are not larger than those of the positions left out. *)
Lemma argsort_prefix k :
  let idx := map Z.of_nat (firstn k (Argsort.argsort v)) in
  NoDup idx /\ in_range (length v) idx /\
  forall i j, In i idx -> (0 <= j < Z.of_nat (length v))%Z -> ~ In j idx ->
              (key_at v i <= key_at v j)%R.
Proof.
  intros idx. pose proof argsort_NoDup as ND.
  rewrite <- (firstn_skipn k (Argsort.argsort v)) in ND.
  split; [|split].
  - apply NoDup_map_of_nat.
    eapply NoDup_app_remove_r. exact ND.
  - apply Forall_forall. intros i Hi. apply in_map_iff in Hi as [a [<- Ha]].
    apply In_firstn in Ha. apply argsort_In in Ha. lia.
  - intros i j Hi Hj Hnot. apply in_map_iff in Hi as [a [<- Ha]].
    unfold key_at. rewrite Nat2Z.id.
    assert (Hin : In (Z.to_nat j) (Argsort.argsort v)) by (apply argsort_In; lia).
    rewrite <- (firstn_skipn k (Argsort.argsort v)) in Hin.
    apply in_app_or in Hin as [Hin|Hin].
    + exfalso. apply Hnot. apply in_map_iff. exists (Z.to_nat j). split; [lia|exact Hin].
    + pose proof argsort_sorted as S.
      rewrite <- (firstn_skipn k (Argsort.argsort v)) in S.
      change (key_le (fun i => nth i v 0%R) a (Z.to_nat j)).
      eapply sorted_app_le; [exact S|exact Ha|exact Hin].
Qed.

(** Any suffix holds distinct positions whose values are not smaller than
    those of the positions left out. *)
Lemma argsort_suffix k :
  let idx := map Z.of_nat (skipn k (Argsort.argsort v)) in
  NoDup idx /\ in_range (length v) idx /\
  forall i j, In i idx -> (0 <= j < Z.of_nat (length v))%Z -> ~ In j idx ->
              (key_at v j <= key_at v i)%R.
Proof.
  intros idx. pose proof argsort_NoDup as ND.
  rewrite <- (firstn_skipn k (Argsort.argsort v)) in ND.
  split; [|split].
  - apply NoDup_map_of_nat.
    eapply NoDup_app_remove_l. exact ND.
  - apply Forall_forall. intros i Hi. apply in_map_iff in Hi as [a [<- Ha]].
    apply In_skipn in Ha. apply argsort_In in Ha. lia.
  - intros i j Hi Hj Hnot. apply in_map_iff in Hi as [a [<- Ha]].
    unfold key_at. rewrite Nat2Z.id.
    assert (Hin : In (Z.to_nat j) (Argsort.argsort v)) by (apply argsort_In; lia).
    rewrite <- (firstn_skipn k (Argsort.argsort v)) in Hin.
    apply in_app_or in Hin as [Hin|Hin].
    + pose proof argsort_sorted as S.
      rewrite <- (firstn_skipn k (Argsort.argsort v)) in S.
      change (key_le (fun i => nth i v 0%R) (Z.to_nat j) a).
      eapply sorted_app_le; [exact S|exact Hin|exact Ha].
    + exfalso. apply Hnot. apply in_map_iff. exists (Z.to_nat j). split; [lia|exact Hin].
Qed.

End ArgsortArray.

(** ** Best-versus-second-best sampling *)

Lemma argmax_from_spec (r : list R) :
  forall (v pre : list R) (best : nat),
    r = pre ++ v -> (best < length pre)%nat ->
    (forall k, (k < length pre)%nat -> (nth k r 0 <= nth best r 0)%R) ->
    let b := Argsort.argmax_from best (nth best r 0%R) (length pre) v in
    (b < length r)%nat /\
    forall k, (k < length r)%nat -> (nth k r 0 <= nth b r 0)%R.
Proof.
  induction v as [|x rest IH]; intros pre best E Hb Hmax; simpl.
  - subst r. rewrite app_nil_r in *. split; [exact Hb | exact Hmax].
  - assert (Ex : nth (length pre) r 0%R = x).
    { subst r. rewrite app_nth2 by lia. now rewrite Nat.sub_diag. }
    assert (E' : r = (pre ++ [x]) ++ rest) by (subst r; now rewrite <- app_assoc).
    assert (L' : length (pre ++ [x]) = S (length pre))
      by (rewrite length_app; simpl; lia).
    destruct (Rlt_dec (nth best r 0%R) x) as [Hlt|Hge].
    + specialize (IH (pre ++ [x]) (length pre) E').
      rewrite L', Ex in IH. apply IH; [lia|].
      intros k Hk. destruct (Nat.eq_dec k (length pre)) as [->|Hne].
      * rewrite Ex. lra.
      * assert (Hk' : (k < length pre)%nat) by lia.
        specialize (Hmax k Hk'). lra.
    + specialize (IH (pre ++ [x]) best E').
      rewrite L' in IH. apply IH; [lia|].
      intros k Hk. destruct (Nat.eq_dec k (length pre)) as [->|Hne].
      * rewrite Ex. lra.
      * apply Hmax. lia.
Qed.

Lemma argmax_spec (r : list R) :
  r <> [] ->
  (Argsort.argmax r < length r)%nat /\
  forall k, (k < length r)%nat -> (nth k r 0 <= nth (Argsort.argmax r) r 0)%R.
Proof.
  destruct r as [|x rest]; [congruence|]. intros _.
  apply (@argmax_from_spec (x :: rest) rest [x] 0%nat); simpl; try lia; auto.
  intros k Hk. replace k with 0%nat by lia. simpl. lra.
Qed.

(** The code's margin is the highest entry minus the second-highest one. *)
Lemma row_margin_is_margin (r : list R) :
  (2 <= length r)%nat -> is_margin r (row_margin r).
Proof.
  intros Hlen.
  set (key := fun i => nth i r 0%R).
  set (srt := Argsort.argsort r).
  set (a := nth (length r - 2) srt 0%nat).
  set (b := nth (length r - 1) srt 0%nat).
  assert (Ls : length srt = length r) by apply argsort_length.
  assert (Ha : (a < length r)%nat).
  { apply argsort_In. apply nth_In. rewrite argsort_length. lia. }
  assert (Hb : (b < length r)%nat).
  { apply argsort_In. apply nth_In. rewrite argsort_length. lia. }
  assert (Hab : b <> a).
  { intros E. pose proof (argsort_NoDup r) as ND. fold srt in ND.
    pose proof (proj1 (NoDup_nth srt 0%nat) ND) as Inj.
    assert ((length r - 1)%nat = (length r - 2)%nat); [|lia].
    apply Inj; lia || exact E. }
  assert (Hpos : forall k, (k < length r)%nat ->
                   exists p, (p < length r)%nat /\ nth p srt 0%nat = k).
  { intros k Hk. apply argsort_In in Hk.
    apply (In_nth _ _ 0%nat) in Hk as [p [Hp E]]. rewrite argsort_length in Hp.
    exists p. split; [lia|exact E]. }
  assert (Hsorted : forall p q, (p < q)%nat -> (q < length r)%nat ->
                      (key (nth p srt 0%nat) <= key (nth q srt 0%nat))%R).
  { intros p q Hpq Hq. apply (@sorted_nth key srt p q 0%nat); try lia.
    apply argsort_sorted. }
  assert (Hbmax : forall k, (k < length r)%nat -> (key k <= key b)%R).
  { intros k Hk. destruct (Hpos k Hk) as [p [Hp <-]].
    destruct (Nat.eq_dec p (length r - 1)) as [->|Hne]; [unfold b; lra|].
    apply Hsorted; lia. }
  assert (Hamax : forall k, (k < length r)%nat -> k <> b -> (key k <= key a)%R).
  { intros k Hk Hkb. destruct (Hpos k Hk) as [p [Hp E]].
    destruct (Nat.eq_dec p (length r - 1)) as [->|Hne1];
      [exfalso; apply Hkb; rewrite <- E; reflexivity|].
    destruct (Nat.eq_dec p (length r - 2)) as [->|Hne2].
    - subst k. unfold a. lra.
    - subst k. apply Hsorted; lia. }
  assert (Hne : r <> []) by (destruct r; simpl in *; [lia|congruence]).
  destruct (argmax_spec Hne) as [Hm Hmmax].
  assert (Etop : key (Argsort.argmax r) = key b).
  { apply Rle_antisym; [apply Hbmax; exact Hm | apply Hmmax; exact Hb]. }
  exists (key b), (key a). split.
  - exists b, a. repeat split; auto.
  - unfold row_margin. fold srt a key. change (nth (Argsort.argmax r) r 0%R)
      with (key (Argsort.argmax r)). now rewrite Etop.
Qed.

Section BvSB.
Context {sk : Collaborators}.
Implicit Types (s : OCluDAL) (P : matrix).

Lemma pick_map (m : list (list R)) (f : list R -> nat) :
  pick m (map f m) = map (fun r => nth (f r) r 0%R) m.
Proof.
  unfold pick. induction m as [|r m IH]; simpl; [reflexivity|].
  now rewrite IH.
Qed.

Lemma sub_arrays_map {A : Type} (f g : A -> R) (m : list A) :
  sub_arrays (map f m) (map g m) = map (fun r => (f r - g r)%R) m.
Proof.
  induction m as [|r m IH]; simpl; [reflexivity|]. now rewrite IH.
Qed.

Lemma column_last_but_one (width : nat) (m : list (list nat)) :
  (2 <= width)%nat ->
  column width (-2) m = Some (map (fun r => nth (width - 2) r 0%nat) m).
Proof.
  intros H. unfold column, Np.normalize_index.
  replace (0 <=? -2)%Z with false by reflexivity. cbn [andb].
  replace (- Z.of_nat width <=? -2)%Z with true
    by (symmetry; apply Z.leb_le; lia).
  replace (-2 <? 0)%Z with true by reflexivity. cbn [andb].
  replace (Z.to_nat (-2 + Z.of_nat width)) with (width - 2)%nat by lia.
  reflexivity.
Qed.


Lemma BvSB_diff_ok P s :
  wf_matrix P -> (2 <= n_classes P)%nat ->
  BvSB_diff P s = Ok (map row_margin (rows P)) s.
Proof.
  intros W C. unfold BvSB_diff. run_method.
  replace (n_classes P =? 0)%nat with false
    by (symmetry; apply Nat.eqb_neq; lia).
  rewrite (column_last_but_one _ C). run_method.
  rewrite map_map, !pick_map, sub_arrays_map. f_equal.
  apply map_ext_in. intros r Hr. unfold wf_matrix in W.
  rewrite Forall_forall in W. rewrite <- (W r Hr). reflexivity.
Qed.

Lemma BvSB_Sampling_ok P n s :
  wf_matrix P -> (2 <= n_classes P)%nat ->
  BvSB_Sampling P n s =
  Ok (map Z.of_nat
          (Np.slice_to (Argsort.argsort (map row_margin (rows P))) n)) s.
Proof.
  intros W C. unfold BvSB_Sampling. run_method.
  rewrite (BvSB_diff_ok s W C). reflexivity.
Qed.

End BvSB.

(** Evaluation of the array functions on arrays of explicit reals: every
    comparison is decided by linear arithmetic. *)
Ltac array_step :=
  cbn [nth length seq fold_left map Argsort.insert Argsort.argmax
       Argsort.argmax_from Nat.sub firstn skipn rows n_classes].

Ltac decide_real :=
  match goal with
  | |- context [Rle_dec ?a ?b] =>
      destruct (Rle_dec a b); [try (exfalso; lra) | try (exfalso; lra)]
  | |- context [Rlt_dec ?a ?b] =>
      destruct (Rlt_dec a b); [try (exfalso; lra) | try (exfalso; lra)]
  end.

Ltac eval_arrays :=
  unfold Argsort.argsort, Argsort.sort_indices;
  array_step; repeat (decide_real; array_step).

Lemma example_margins :
  map row_margin (rows example_probabilities) =
  [9/10 - 1/10; 5/10 - 5/10; 6/10 - 4/10]%R.
Proof.
  unfold example_probabilities. cbn [rows map].
  repeat f_equal; unfold row_margin; eval_arrays; reflexivity.
Qed.

Lemma example_wf : wf_matrix example_probabilities.
Proof. repeat constructor. Qed.

Section BvSBClaim.
Context {sk : Collaborators}.
Implicit Types (s : OCluDAL) (P : matrix).

Lemma slice_to_firstn {A : Type} (l : list A) (n : Z) :
  (0 <= n <= Z.of_nat (length l))%Z ->
  Np.slice_to l n = firstn (Z.to_nat n) l.
Proof.
  intros H. unfold Np.slice_to.
  replace (n <? 0)%Z with false by (symmetry; apply Z.ltb_ge; lia).
  now rewrite Z.min_l by lia.
Qed.

Lemma BvSB_example s :
  BvSB_Sampling example_probabilities 2 s = Ok [1; 2]%Z s.
Proof.
  rewrite (BvSB_Sampling_ok 2 s example_wf) by (simpl; lia).
  rewrite example_margins. eval_arrays. reflexivity.
Qed.

(** C4.  On a probability matrix with at least two columns and for
    [0 <= n <= ] its number of rows, [BvSB_Sampling] returns [n] distinct row
    positions such that no row left out has a smaller margin than a row
    returned, the margin of a row being its highest entry minus its
    second-highest entry.  On the rows [0.9, 0.1], [0.5, 0.5], [0.6, 0.4]
    with [n = 2] it returns the second and the third row. *)
Theorem BvSB_selects_smallest_margins s P n :
  wf_matrix P -> (2 <= n_classes P)%nat ->
  (0 <= n <= Z.of_nat (n_samples P))%Z ->
  (exists diff idx,
      BvSB_Sampling P n s = Ok idx s /\
      Forall2 is_margin (rows P) diff /\
      n_smallest diff n idx) /\
  BvSB_Sampling example_probabilities 2 s = Ok [1; 2]%Z s.
Proof.
  intros W C Hn. split; [|apply BvSB_example].
  exists (map row_margin (rows P)). eexists.
  split; [apply (BvSB_Sampling_ok n s W C)|].
  split.
  - unfold wf_matrix in W. clear Hn. induction (rows P) as [|r m IH]; simpl.
    + constructor.
    + inversion W; subst. constructor; [|now apply IH].
      apply row_margin_is_margin. lia.
  - set (diff := map row_margin (rows P)).
    assert (Ld : length diff = n_samples P) by apply length_map.
    rewrite slice_to_firstn by (rewrite argsort_length; lia).
    destruct (argsort_prefix diff (Z.to_nat n)) as (ND & IR & Hmin).
    unfold n_smallest. repeat split; auto.
    rewrite length_map, length_firstn, argsort_length. lia.
Qed.

End BvSBClaim.

Lemma BvSB_selects_smallest_margins_witness :
  (exists diff idx,
      BvSB_Sampling example_probabilities 1 toy_pool = Ok idx toy_pool /\
      Forall2 is_margin (rows example_probabilities) diff /\
      n_smallest diff 1 idx) /\
  BvSB_Sampling example_probabilities 2 toy_pool = Ok [1; 2]%Z toy_pool.
Proof.
  apply (@BvSB_selects_smallest_margins toy toy_pool example_probabilities 1).
  - exact example_wf.
  - simpl. lia.
  - simpl. lia.
Defined.

Lemma top_two_unique (r : list R) (a b a' b' : R) :
  top_two r a b -> top_two r a' b' -> a = a' /\ b = b'.
Proof.
  intros (i & j & Hij & Hi & Hj & Ea & Eb & Hmax & Hrest)
         (i' & j' & Hij' & Hi' & Hj' & Ea' & Eb' & Hmax' & Hrest').
  assert (Eaa : a = a').
  { apply Rle_antisym.
    - rewrite <- Ea. now apply Hmax'.
    - rewrite <- Ea'. now apply Hmax. }
  split; [exact Eaa|]. apply Rle_antisym.
  - destruct (Nat.eq_dec j i') as [E|N].
    + rewrite <- Eb, E, Ea', <- Eaa, <- Ea. apply Hrest'; [exact Hi|congruence].
    + rewrite <- Eb. now apply Hrest'.
  - destruct (Nat.eq_dec j' i) as [E|N].
    + rewrite <- Eb', E, Ea, Eaa, <- Ea'. apply Hrest; [exact Hi'|congruence].
    + rewrite <- Eb'. now apply Hrest.
Qed.

(** ** Entropy sampling *)

Lemma ln_below_line (x : R) : (0 < x)%R -> x <> 1%R -> (ln x < x - 1)%R.
Proof.
  intros Hx Hne.
  pose proof (exp_ineq1 (ln x) (ln_neq_0 x Hne Hx)) as H.
  rewrite (exp_ln x Hx) in H. lra.
Qed.

Lemma half_term (p : R) :
  (0 < p)%R -> p <> (1/2)%R -> (- (p * ln 2) - p * ln p < 1/2 - p)%R.
Proof.
  intros Hp Hne.
  assert (H2p : (0 < 2 * p)%R) by lra.
  assert (Hinv : (0 < / (2 * p))%R) by now apply Rinv_0_lt_compat.
  assert (Hne1 : (/ (2 * p))%R <> 1%R).
  { intros E. apply Hne.
    assert (E2 : (2 * p = 1)%R).
    { rewrite <- (Rinv_inv (2 * p)), E. apply Rinv_1. }
    lra. }
  pose proof (ln_below_line Hinv Hne1) as H.
  rewrite (ln_Rinv (2 * p) H2p), (ln_mult 2 p) in H by lra.
  assert (Hm : (p * (- (ln 2 + ln p)) < p * (/ (2 * p) - 1))%R)
    by (apply Rmult_lt_compat_l; assumption).
  replace (p * (/ (2 * p) - 1))%R with (1/2 - p)%R in Hm by (field; lra).
  lra.
Qed.

(** A distribution on two classes other than the even one has less entropy
    than [ln 2]. *)
Lemma binary_entropy_below_ln2 (p q : R) :
  (0 < p)%R -> (0 < q)%R -> (p + q = 1)%R -> p <> (1/2)%R ->
  (shannon_entropy [p; q] < ln 2)%R.
Proof.
  intros Hp Hq Hs Hne. unfold shannon_entropy. simpl.
  assert (Hneq : q <> (1/2)%R) by lra.
  pose proof (half_term Hp Hne) as H1.
  pose proof (half_term Hq Hneq) as H2.
  assert (E : (p * ln 2 + q * ln 2 = ln 2)%R).
  { rewrite <- Rmult_plus_distr_r, Hs. lra. }
  lra.
Qed.

Lemma even_entropy : shannon_entropy [1/2; 1/2]%R = ln 2.
Proof.
  unfold shannon_entropy. simpl.
  replace (1/2)%R with (/ 2)%R by lra.
  rewrite (ln_Rinv 2) by lra. lra.
Qed.

Lemma py_sum_fold_right (l : list R) : py_sum l = fold_right Rplus 0%R l.
Proof.
  unfold py_sum.
  assert (G : forall a, fold_left Rplus l a = (a + fold_right Rplus 0 l)%R).
  { induction l as [|x l IH]; intros a; simpl; [lra|]. rewrite IH. lra. }
  rewrite G. lra.
Qed.

Lemma map_nth_seq {A B : Type} (f : A -> B) (d : A) (l : list A) :
  map (fun k => f (nth k l d)) (seq 0 (length l)) = map f l.
Proof.
  induction l as [|x l IH]; simpl; [reflexivity|].
  f_equal. rewrite <- seq_shift, map_map. exact IH.
Qed.

(** The loop of [Entropy_Sampling] computes the Shannon entropy of every
    row. *)
Lemma entropy_list_shannon (P : matrix) :
  wf_matrix P -> entropy_list P = map shannon_entropy (rows P).
Proof.
  intros W. unfold entropy_list, n_samples, entropy_of.
  etransitivity.
  { exact (map_nth_seq
             (fun r => (- py_sum (map (fun k => let p := nth k r 0 in p * ln p)
                                      (seq 0 (n_classes P))))%R)
             [] (rows P)). }
  apply map_ext_in. intros r Hr. unfold wf_matrix in W.
  rewrite Forall_forall in W. rewrite <- (W r Hr). cbv zeta.
  rewrite (map_nth_seq (fun p => (p * ln p)%R) 0%R r).
  unfold shannon_entropy. now rewrite py_sum_fold_right.
Qed.

Lemma example_entropies :
  let H := map shannon_entropy (rows example_probabilities) in
  (nth 0 H 0 < nth 1 H 0)%R /\ (nth 2 H 0 < nth 1 H 0)%R.
Proof.
  unfold example_probabilities. cbn [rows map nth].
  assert (E : shannon_entropy [5/10; 5/10]%R = ln 2).
  { replace (5/10)%R with (1/2)%R by lra. apply even_entropy. }
  rewrite E. split; apply binary_entropy_below_ln2; lra.
Qed.

Lemma example_positive : positive_matrix example_probabilities.
Proof. repeat constructor; lra. Qed.

Section Entropy.
Context {sk : Collaborators}.
Implicit Types (s : OCluDAL) (P : matrix).

Lemma entropy_list_length P : length (entropy_list P) = n_samples P.
Proof. unfold entropy_list. now rewrite length_map, length_seq. Qed.

Lemma Entropy_Sampling_ok P n s :
  Entropy_Sampling P n s =
  Ok (map Z.of_nat (Np.slice_from (Argsort.argsort (entropy_list P)) (- n))) s.
Proof.
  unfold Entropy_Sampling. run_method.
  now rewrite entropy_list_length, Nat.eqb_refl.
Qed.

Lemma slice_from_last {A : Type} (l : list A) (n : Z) :
  (1 <= n <= Z.of_nat (length l))%Z ->
  Np.slice_from l (- n) = skipn (length l - Z.to_nat n) l.
Proof.
  intros H. unfold Np.slice_from.
  replace (- n <? 0)%Z with true by (symmetry; apply Z.ltb_lt; lia).
  f_equal. lia.
Qed.

Lemma slice_from_zero {A : Type} (l : list A) : Np.slice_from l (- 0) = l.
Proof. unfold Np.slice_from. simpl. now rewrite Z.min_l by lia. Qed.

(** With [n = 0] the slice [[-n:]] is the whole array: every row position
    is returned.  [BvSB_Sampling], which slices [[:n]], returns none. *)
Lemma Entropy_Sampling_zero P s :
  exists idx, Entropy_Sampling P 0 s = Ok idx s /\ length idx = n_samples P.
Proof.
  eexists. split; [apply Entropy_Sampling_ok|].
  now rewrite slice_from_zero, length_map, argsort_length, entropy_list_length.
Qed.

Lemma BvSB_Sampling_zero P s :
  wf_matrix P -> (2 <= n_classes P)%nat -> BvSB_Sampling P 0 s = Ok [] s.
Proof.
  intros W C. rewrite (BvSB_Sampling_ok 0 s W C).
  rewrite slice_to_firstn by lia. reflexivity.
Qed.

(** For [1 <= n <= ] the number of rows and strictly positive entries,
    [Entropy_Sampling] returns [n] distinct row positions such that no row
    left out has a larger Shannon entropy than a row returned. *)
Lemma Entropy_selects_largest s P n :
  wf_matrix P -> positive_matrix P ->
  (1 <= n <= Z.of_nat (n_samples P))%Z ->
  exists idx,
    Entropy_Sampling P n s = Ok idx s /\
    n_largest (map shannon_entropy (rows P)) n idx.
Proof.
  intros W _ Hn. eexists. split; [apply Entropy_Sampling_ok|].
  rewrite (entropy_list_shannon W).
  set (H := map shannon_entropy (rows P)).
  assert (LH : length H = n_samples P) by apply length_map.
  rewrite slice_from_last by (rewrite argsort_length; lia).
  rewrite argsort_length.
  destruct (argsort_suffix H (length H - Z.to_nat n)) as (ND & IR & Hmax).
  unfold n_largest. repeat split; auto.
  rewrite length_map, length_skipn, argsort_length. lia.
Qed.

(** On the rows [0.9, 0.1], [0.5, 0.5], [0.6, 0.4] and [n = 1] the row
    returned is the second one. *)
Lemma Entropy_example s :
  Entropy_Sampling example_probabilities 1 s = Ok [1%Z] s.
Proof.
  rewrite Entropy_Sampling_ok, (entropy_list_shannon example_wf).
  destruct example_entropies as [F0 F2]. revert F0 F2.
  unfold example_probabilities. cbn [rows map nth].
  set (H0 := shannon_entropy [9/10; 1/10]%R).
  set (H1 := shannon_entropy [5/10; 5/10]%R).
  set (H2 := shannon_entropy [6/10; 4/10]%R).
  intros F0 F2. eval_arrays; reflexivity.
Qed.

(** C5 at [n = 0].  [Entropy_Sampling] slices the sorted positions with
    [[-n:]], which for [n = 0] is the whole array: on the three-row example
    it returns three positions, every row among them, where the claim
    promises none. *)
Theorem Entropy_Sampling_zero_returns_every_row s :
  exists idx,
    Entropy_Sampling example_probabilities 0 s = Ok idx s /\
    length idx = 3%nat /\
    In 0%Z idx /\ In 1%Z idx /\ In 2%Z idx.
Proof.
  eexists. split; [apply Entropy_Sampling_ok|].
  rewrite slice_from_zero. split.
  - now rewrite length_map, argsort_length, entropy_list_length.
  - assert (All : forall k, (k < 3)%nat ->
                    In (Z.of_nat k)
                       (map Z.of_nat
                            (Argsort.argsort (entropy_list example_probabilities)))).
    { intros k Hk. apply in_map, argsort_In.
      rewrite entropy_list_length. exact Hk. }
    repeat split; [apply (All 0%nat) | apply (All 1%nat) | apply (All 2%nat)]; lia.
Qed.

End Entropy.

(** ** Failures of the sampling strategies *)

Section SamplingFailures.
Context {sk : Collaborators}.
Implicit Types (s : OCluDAL) (P : matrix).








End SamplingFailures.



(** ** Phase 1: the novelty scan *)





Section NoveltyScan.
Context {sk : Collaborators}.
Implicit Types (s : OCluDAL).

Lemma novel_mask_of_flagged s lbl :
  novel_mask_of s lbl = map (flagged_by s lbl) (unlabelled_X_new s).
Proof. reflexivity. Qed.


(** C9.  When the loop of [step1] is entered and its first scan finds no
    novel row, [step1] returns having fitted the classifier once, appended
    one record, called neither the clustering nor the oracle, and left the
    pool as it was. *)
Theorem step1_stops_without_novelty s max_iter max_samples novel_mask :
  (0 < max_iter)%Z ->
  (Z.of_nat (length (labelled_X_new s)) < max_samples)%Z ->
  all_axis0 (masks_of s) = Some novel_mask ->
  Np.compress novel_mask (unlabelled_X_new s) = [] ->
  exists r s',
    step1 max_iter max_samples s = Ok tt s' /\
    data s' = data s ++ [r] /\
    Number_of_Annotations r = length (labelled_X_new s) /\
    calls s' = calls s ++ [CallFit] /\
    same_pool s s'.
Proof.
  intros Hm Hs Hmask Hnone. unfold step1.
  destruct (train_model_ok s) as (r & E & Nr).
  exists r. eexists. unfold bind at 1. rewrite E. run_method.
  destruct (Z.to_nat max_iter) as [|fuel] eqn:F; [lia|].
  cbn [step1_loop]. run_method.
  replace (Z.of_nat (length (labelled_X_new s)) <? max_samples)%Z with true
    by (symmetry; apply Z.ltb_lt; lia).
  change (masks_of _) with (masks_of s). rewrite Hmask, Hnone.
  cbn [length Nat.ltb Nat.leb]. split; [reflexivity|].
  run_method. repeat split. exact Nr.
Qed.

End NoveltyScan.


Lemma toy_pool_scan :
  all_axis0 (masks_of toy_pool) = Some [false; false; false].
Proof.
  unfold masks_of, novel_mask_of, toy_pool.
  cbn [unique_labels unlabelled_X_new labelled_X_new labelled_y_new map
       all_axis0 fold_left ocsvm_predict ocsvm_fit toy].
  repeat match goal with
         | |- context [Rlt_dec ?a ?b] =>
             destruct (Rlt_dec a b); [exfalso; lra|]
         end.
  reflexivity.
Defined.

Lemma step1_stops_without_novelty_witness :
  exists r s',
    step1 1 800 toy_pool = Ok tt s' /\
    data s' = data toy_pool ++ [r] /\
    Number_of_Annotations r = length (labelled_X_new toy_pool) /\
    calls s' = calls toy_pool ++ [CallFit] /\
    same_pool toy_pool s'.
Proof.
  apply (@step1_stops_without_novelty toy toy_pool 1 800 [false; false; false]).
  - lia.
  - simpl. lia.
  - exact toy_pool_scan.
  - reflexivity.
Defined.

(** ** The results table *)

Section ResultsTable.
Context {sk : Collaborators}.
Implicit Types (s : OCluDAL).

Lemma count_calls_app c (l1 l2 : list call) :
  count_calls c (l1 ++ l2) = (count_calls c l1 + count_calls c l2)%nat.
Proof. unfold count_calls. now rewrite filter_app, length_app. Qed.

Lemma grows_by_refl k s : grows_by k s s.
Proof.
  exists [], []. rewrite !app_nil_r. repeat split. unfold count_calls. simpl. lia.
Qed.

Lemma grows_by_trans k s1 s2 s3 :
  grows_by k s1 s2 -> grows_by k s2 s3 -> grows_by k s1 s3.
Proof.
  intros (a1 & c1 & D1 & C1 & L1) (a2 & c2 & D2 & C2 & L2).
  exists (a1 ++ a2), (c1 ++ c2).
  rewrite D2, D1, C2, C1, !app_assoc. repeat split.
  rewrite length_app, count_calls_app. lia.
Qed.

(** A step that leaves the table alone and does not fit. *)
Lemma grows_by_quiet k s s' (newcalls : list call) :
  data s' = data s -> calls s' = calls s ++ newcalls ->
  count_calls CallFit newcalls = 0%nat -> grows_by k s s'.
Proof.
  intros D C Z. exists [], newcalls. rewrite app_nil_r.
  repeat split; auto. rewrite Z. simpl. lia.
Qed.

Lemma oracle_annotations_log indices s :
  data (final_state (oracle_annotations indices s)) = data s /\
  calls (final_state (oracle_annotations indices s)) =
  calls s ++ [CallAnnotate].
Proof.
  unfold oracle_annotations. run_method.
  destruct (Np.take (unlabelled_X_new s) indices); run_method; [|now split].
  destruct (Np.take (unlabelled_y_new s) indices); run_method; [|now split].
  destruct (length (labelled_X_new s ++ l) =? length (labelled_y_new s ++ l0))%nat;
    run_method; [|now split].
  destruct (Np.delete (unlabelled_X_new s) indices); run_method; [|now split].
  destruct (Np.delete (unlabelled_y_new s) indices); run_method; now split.
Qed.

Lemma select_batch_log st P n s :
  data (final_state (select_batch st P n s)) = data s /\
  calls (final_state (select_batch st P n s)) = calls s.
Proof.
  unfold select_batch.
  destruct (st =? "BvSB")%string; [now rewrite BvSB_Sampling_state|].
  destruct (st =? "Random")%string.
  { unfold Random_sampling, np_random_choice. run_method.
    destruct (Z.of_nat (length (unlabelled_X_new s)) <? n)%Z; [now split|].
    destruct (n <? 0)%Z; [now split|].
    destruct (rng_permutation (np_random s) (length (unlabelled_X_new s))).
    run_method. now split. }
  destruct (st =? "Entropy")%string; [now rewrite Entropy_Sampling_state|].
  now split.
Qed.

Lemma representative_indices_of_state X rX s :
  final_state (representative_indices_of X rX s) = s.
Proof.
  revert s. induction rX as [|sample rest IH]; intros s; simpl; [reflexivity|].
  run_method. destruct (first_match sample 0 X); [|reflexivity].
  specialize (IH s). destruct (representative_indices_of X rest s); exact IH.
Qed.

(** [train_model] followed by [run_classification], as [step2] does it,
    fits once and appends the same record twice. *)
Lemma train_then_report s :
  exists r clf,
    bind train_model run_classification s =
    Ok (f1_score_weighted (unlabelled_y_new s)
                          (clf_predict clf (unlabelled_X_new s)),
        accuracy_score (unlabelled_y_new s)
                       (clf_predict clf (unlabelled_X_new s)),
        length (labelled_X_new s))
       (set_data (data s ++ [r; r]) (set_calls (calls s ++ [CallFit]) s)) /\
    clf = clf_fit (labelled_X_new s) (labelled_y_new s).
Proof.
  unfold train_model, run_classification. run_method.
  eexists. eexists. split; [|reflexivity].
  rewrite <- app_assoc. reflexivity.
Qed.

Lemma train_model_grows s : grows_by 1 s (final_state (train_model s)).
Proof.
  destruct (train_model_ok s) as (r & E & _). rewrite E.
  exists [r], [CallFit]. repeat split.
Qed.



End ResultsTable.

(** On the pool with one labelled and three unlabelled rows, [step2] with a
    size cap already reached fits once and leaves two equal records. *)
Lemma step2_example_two_records :
  exists r s',
    step2 0 1 0 "BvSB" toy_pool = Ok tt s' /\
    data s' = [r; r] /\ calls s' = [CallFit].
Proof. eexists. eexists. split; [reflexivity|]. split; reflexivity. Qed.

(** In [step1] every fit is reported once. *)
Lemma step1_loop_log {sk : Collaborators} fuel max_samples :
  forall s : OCluDAL,
    grows_by 1 s (final_state (step1_loop fuel max_samples s)).
Proof.
  induction fuel as [|fuel IH]; intros s; cbn [step1_loop]; run_method.
  { apply grows_by_refl. }
  destruct (Z.of_nat (length (labelled_X_new s)) <? max_samples)%Z;
    [|apply grows_by_refl].
  destruct (all_axis0 (masks_of s)) as [novel_mask|]; run_method.
  2:{ apply (@grows_by_quiet sk 1 s _ [CallCluster]); reflexivity. }
  destruct (0 <? length (Np.compress novel_mask (unlabelled_X_new s)))%nat;
    run_method; [|apply grows_by_refl].
  set (s1 := set_calls (calls s ++ [CallCluster]) s).
  assert (G1 : grows_by 1 s s1)
    by (apply (@grows_by_quiet sk 1 s s1 [CallCluster]); reflexivity).
  set (rX := ap_cluster_centers _ _ _).
  pose proof (representative_indices_of_state (unlabelled_X_new s) rX s1) as St.
  destruct (representative_indices_of (unlabelled_X_new s) rX s1)
    as [indices s2|e s2]; cbn [final_state] in *; subst s2; [|exact G1].
  destruct (oracle_annotations_log indices s1) as [D3 C3].
  destruct (oracle_annotations indices s1) as [[] s3|e s3];
    cbn [final_state] in *.
  2:{ apply (grows_by_trans G1).
      apply (@grows_by_quiet sk 1 s1 s3 [CallAnnotate]); auto. }
  assert (G3 : grows_by 1 s s3).
  { apply (grows_by_trans G1).
    apply (@grows_by_quiet sk 1 s1 s3 [CallAnnotate]); auto. }
  pose proof (train_model_grows s3) as G4.
  destruct (train_model_ok s3) as (r & E & _). rewrite E in *.
  cbn [final_state] in G4.
  eapply grows_by_trans; [exact G3|].
  eapply grows_by_trans; [exact G4|]. apply IH.
Qed.

(** ** Determinism of the uncertainty strategies *)

Section Determinism.
Context {sk : Collaborators}.
Implicit Types (s : OCluDAL) (P : matrix).

Lemma BvSB_Sampling_result P n :
  exists r, forall s, result_of (BvSB_Sampling P n s) = r.
Proof.
  unfold BvSB_Sampling, BvSB_diff. run_method.
  destruct (n_classes P =? 0)%nat;
    [eexists; intros; cbn [result_of]; reflexivity|].
  destruct (column (n_classes P) (-2) (map Argsort.argsort (rows P)));
    eexists; intros; cbn [result_of]; reflexivity.
Qed.

Lemma Entropy_Sampling_result P n :
  exists r, forall s, result_of (Entropy_Sampling P n s) = r.
Proof.
  eexists. intros s. rewrite Entropy_Sampling_ok. cbn [result_of]. reflexivity.
Qed.

(** C10.  The outcome of [BvSB_Sampling] and of [Entropy_Sampling] is the
    same in any two states of the object and of the random generator, and
    neither changes the state: given the matrix and [n], two calls agree. *)
Theorem uncertainty_sampling_is_deterministic (s1 s2 : OCluDAL) P n :
  result_of (BvSB_Sampling P n s1) = result_of (BvSB_Sampling P n s2) /\
  result_of (Entropy_Sampling P n s1) = result_of (Entropy_Sampling P n s2) /\
  final_state (BvSB_Sampling P n s1) = s1 /\
  final_state (Entropy_Sampling P n s1) = s1.
Proof.
  destruct (BvSB_Sampling_result P n) as [r Hr].
  destruct (Entropy_Sampling_result P n) as [r' Hr'].
  rewrite !Hr, !Hr'. repeat split.
  - apply BvSB_Sampling_state.
  - apply Entropy_Sampling_state.
Qed.

End Determinism.

(** [Random_sampling], in contrast, answers by the state of the generator
    and advances it. *)
Lemma Random_sampling_depends_on_generator :
  result_of (Random_sampling 1 toy_pool) = inl [0%Z] /\
  result_of (Random_sampling 1 (set_np_random true toy_pool)) = inl [2%Z] /\
  np_random (final_state (Random_sampling 1 toy_pool)) = true.
Proof. repeat split. Qed.

(** ** The pool invariant along the loops *)

Section LoopInvariant.
Context {sk : Collaborators}.
Implicit Types (s : OCluDAL) (indices : list Z).

Lemma normalize_index_nonneg len i k :
  Np.normalize_index len i = Some k -> (0 <= i)%Z -> (0 <= i < Z.of_nat len)%Z.
Proof.
  unfold Np.normalize_index.
  destruct ((0 <=? i) && (i <? Z.of_nat len))%Z eqn:E1.
  - intros _ _. apply andb_prop in E1 as [H1 H2].
    apply Z.leb_le in H1. apply Z.ltb_lt in H2. lia.
  - destruct ((- Z.of_nat len <=? i) && (i <? 0))%Z eqn:E2; [|discriminate].
    intros _ H. apply andb_prop in E2 as [_ H2]. apply Z.ltb_lt in H2. lia.
Qed.

Lemma normalize_all_nonneg len indices ks :
  Np.normalize_all len indices = Some ks ->
  Forall (fun i => 0 <= i)%Z indices -> in_range len indices.
Proof.
  revert ks. induction indices as [|i rest IH]; intros ks E F; [constructor|].
  simpl in E. inversion F as [|? ? Hi F']; subst.
  destruct (Np.normalize_index len i) as [k|] eqn:Ek; [|discriminate].
  destruct (Np.normalize_all len rest) as [ks'|] eqn:Er; [|discriminate].
  constructor; [eapply normalize_index_nonneg; eauto | eapply IH; eauto].
Qed.

Lemma same_pool_invariant s s' :
  pool_invariant s -> same_pool s s' -> pool_invariant s'.
Proof.
  unfold pool_invariant, lockstep, sizes_sum_to_dataset, pool_size, same_pool.
  intros [[L U] Sz] (E0 & E1 & E2 & E3 & E4).
  rewrite E0, E1, E2, E3, E4. auto.
Qed.

(** On distinct non-negative indices [oracle_annotations] keeps the
    invariant whether it returns or raises. *)
Lemma oracle_annotations_keeps_invariant s indices :
  pool_invariant s -> NoDup indices -> Forall (fun i => 0 <= i)%Z indices ->
  pool_invariant (final_state (oracle_annotations indices s)).
Proof.
  intros [L Sz] ND F.
  destruct (Np.normalize_all (length (unlabelled_X_new s)) indices)
    as [ks|] eqn:E.
  - pose proof (normalize_all_nonneg _ E F) as IR.
    pose proof (normalize_all_positions IR) as E'.
    rewrite (oracle_annotations_ok _ L E'). cbn [final_state].
    destruct (normalize_all_bound _ _ E') as [B _].
    pose proof (positions_NoDup IR ND) as ND'.
    split; [now apply annotated_lockstep|].
    unfold sizes_sum_to_dataset. rewrite (annotated_pool_size s ND' B).
    exact Sz.
  - rewrite (oracle_annotations_index_error _ _ E). cbn [final_state].
    split; [exact L | exact Sz].
Qed.

Lemma NoDup_slice_to {A : Type} (l : list A) (n : Z) :
  NoDup l -> NoDup (Np.slice_to l n).
Proof.
  intros ND. unfold Np.slice_to.
  set (k := Z.to_nat _). rewrite <- (firstn_skipn k l) in ND.
  eapply NoDup_app_remove_r. exact ND.
Qed.

Lemma NoDup_slice_from {A : Type} (l : list A) (n : Z) :
  NoDup l -> NoDup (Np.slice_from l n).
Proof.
  intros ND. unfold Np.slice_from.
  set (k := Z.to_nat _). rewrite <- (firstn_skipn k l) in ND.
  eapply NoDup_app_remove_l. exact ND.
Qed.

Lemma of_nat_nonneg (l : list nat) : Forall (fun i => 0 <= i)%Z (map Z.of_nat l).
Proof. apply Forall_forall. intros i H. apply in_map_iff in H as [k [<- _]]. lia. Qed.

(** Every batch a strategy returns holds distinct non-negative indices. *)
Lemma select_batch_indices st P n s indices s' :
  generator_draws_permutations ->
  select_batch st P n s = Ok indices s' ->
  NoDup indices /\ Forall (fun i => 0 <= i)%Z indices.
Proof.
  intros G. unfold select_batch.
  destruct (st =? "BvSB")%string.
  { unfold BvSB_Sampling, BvSB_diff. run_method.
    destruct (n_classes P =? 0)%nat; [discriminate|].
    destruct (column (n_classes P) (-2) (map Argsort.argsort (rows P)));
      [|discriminate].
    intros [= <- _]. split; [|apply of_nat_nonneg].
    apply NoDup_map_of_nat, NoDup_slice_to, argsort_NoDup. }
  destruct (st =? "Random")%string.
  { unfold Random_sampling, np_random_choice. run_method.
    destruct (Z.of_nat (length (unlabelled_X_new s)) <? n)%Z; [discriminate|].
    destruct (n <? 0)%Z; [discriminate|].
    pose proof (G (np_random s) (length (unlabelled_X_new s))) as Perm.
    destruct (rng_permutation (np_random s) (length (unlabelled_X_new s)))
      as [perm g]. run_method. cbn [fst] in Perm.
    intros [= <- _]. split; [|apply of_nat_nonneg].
    apply NoDup_map_of_nat, NoDup_slice_to.
    apply (Permutation_NoDup Perm), seq_NoDup. }
  destruct (st =? "Entropy")%string; [|discriminate].
  rewrite Entropy_Sampling_ok. intros [= <- _]. split; [|apply of_nat_nonneg].
  apply NoDup_map_of_nat, NoDup_slice_from, argsort_NoDup.
Qed.

Lemma first_match_found sample X :
  forall pos i, first_match sample pos X = Some i ->
                (pos <= i)%nat /\ nth (i - pos) X [] = sample.
Proof.
  induction X as [|x rest IH]; intros pos i; simpl; [discriminate|].
  destruct (row_eq_dec x sample) as [->|N].
  - intros [= <-]. split; [lia|]. now rewrite Nat.sub_diag.
  - intros H. destruct (IH _ _ H) as [Hle E]. split; [lia|].
    replace (i - pos)%nat with (S (i - S pos)) by lia. exact E.
Qed.

Lemma representative_indices_distinct X rX s indices s' :
  NoDup rX ->
  representative_indices_of X rX s = Ok indices s' ->
  NoDup indices /\ Forall (fun i => 0 <= i)%Z indices /\
  forall i, In i indices -> In (nth (Z.to_nat i) X []) rX.
Proof.
  revert indices s'. induction rX as [|sample rest IH]; intros indices s' ND;
    simpl; run_method.
  - intros [= <- _]. repeat split; [constructor | constructor | intros i []].
  - inversion ND as [|? ? Hn ND']; subst.
    destruct (first_match sample 0 X) as [i0|] eqn:E0; [|discriminate].
    destruct (representative_indices_of X rest s) as [others s1|] eqn:Er;
      [|discriminate].
    intros [= <- _]. destruct (IH _ _ ND' eq_refl) as (NDo & Fo & Ho).
    destruct (first_match_found _ _ _ E0) as [_ E]. rewrite Nat.sub_0_r in E.
    repeat split.
    + constructor; [|exact NDo]. intros Hin. apply Ho in Hin.
      rewrite Nat2Z.id, E in Hin. contradiction.
    + constructor; [lia | exact Fo].
    + intros i [<-|Hin]; [left; now rewrite Nat2Z.id | right; now apply Ho].
Qed.

Lemma step2_loop_invariant fuel n max_samples st :
  generator_draws_permutations ->
  forall s, pool_invariant s ->
            pool_invariant (final_state (step2_loop fuel n max_samples st s)).
Proof.
  intros G. induction fuel as [|fuel IH]; intros s Inv; cbn [step2_loop];
    run_method; [exact Inv|].
  destruct (Z.of_nat (length (labelled_X_new s)) <? max_samples)%Z; [|exact Inv].
  destruct (train_model_ok s) as (r & E & _). rewrite E. clear E.
  destruct (run_classification_ok
              (clf_fit (labelled_X_new s) (labelled_y_new s))
              (set_data (data s ++ [r]) (set_calls (calls s ++ [CallFit]) s)))
    as (r2 & out & E & _).
  revert E. run_method. intros E. rewrite E. clear E.
  set (s2 := set_data _ _). set (P := clf_predict_proba _ _).
  assert (Inv2 : pool_invariant s2) by exact Inv.
  pose proof (select_batch_pool st P n s2) as SP.
  destruct (select_batch st P n s2) as [indices s3|e s3] eqn:Es;
    cbn [final_state] in *.
  2:{ exact (same_pool_invariant Inv2 SP). }
  destruct (select_batch_indices _ _ _ _ G Es) as [ND F].
  pose proof (oracle_annotations_keeps_invariant
                (same_pool_invariant Inv2 SP) ND F) as Inv4.
  destruct (oracle_annotations indices s3) as [[] s4|e s4];
    cbn [final_state] in *; [now apply IH | exact Inv4].
Qed.

Lemma step2_invariant max_iter n max_samples st s :
  generator_draws_permutations -> pool_invariant s ->
  pool_invariant (final_state (step2 max_iter n max_samples st s)).
Proof.
  intros G Inv. unfold step2. run_method.
  pose proof (@step2_loop_invariant (Z.to_nat (max_iter + 1)) n max_samples st
                G (set_training_type "BvSB" s) Inv) as Inv1.
  destruct (step2_loop (Z.to_nat (max_iter + 1)) n max_samples st
                       (set_training_type "BvSB" s)) as [[] s1|e s1];
    cbn [final_state] in *; [|exact Inv1].
  destruct (train_model_ok s1) as (r & E & _). rewrite E. clear E.
  destruct (run_classification_ok
              (clf_fit (labelled_X_new s1) (labelled_y_new s1))
              (set_data (data s1 ++ [r]) (set_calls (calls s1 ++ [CallFit]) s1)))
    as (r2 & out & E & _).
  revert E. run_method. intros E. rewrite E. exact Inv1.
Qed.

Lemma step1_loop_invariant fuel max_samples :
  exemplars_are_distinct ->
  forall s, pool_invariant s ->
            pool_invariant (final_state (step1_loop fuel max_samples s)).
Proof.
  intros X. induction fuel as [|fuel IH]; intros s Inv; cbn [step1_loop];
    run_method; [exact Inv|].
  destruct (Z.of_nat (length (labelled_X_new s)) <? max_samples)%Z; [|exact Inv].
  destruct (all_axis0 (masks_of s)) as [novel_mask|]; run_method; [|exact Inv].
  destruct (0 <? length (Np.compress novel_mask (unlabelled_X_new s)))%nat;
    run_method; [|exact Inv].
  set (s1 := set_calls (calls s ++ [CallCluster]) s).
  assert (Inv1 : pool_invariant s1) by exact Inv.
  set (rX := ap_cluster_centers _ _ _).
  pose proof (representative_indices_of_state (unlabelled_X_new s) rX s1) as St.
  destruct (representative_indices_of (unlabelled_X_new s) rX s1)
    as [indices s2|e s2] eqn:Er; cbn [final_state] in *; subst s2;
    [|exact Inv1].
  destruct (representative_indices_distinct _ _ (X _ _ _) Er) as (ND & F & _).
  pose proof (oracle_annotations_keeps_invariant Inv1 ND F) as Inv3.
  destruct (oracle_annotations indices s1) as [[] s3|e s3];
    cbn [final_state] in *; [|exact Inv3].
  destruct (train_model_ok s3) as (r & E & _). rewrite E. now apply IH.
Qed.

Lemma step1_invariant max_iter max_samples s :
  exemplars_are_distinct -> pool_invariant s ->
  pool_invariant (final_state (step1 max_iter max_samples s)).
Proof.
  intros X Inv. unfold step1. run_method.
  destruct (train_model_ok s) as (r & E & _). rewrite E.
  now apply step1_loop_invariant.
Qed.

End LoopInvariant.

Section PoolInvariantClaim.
Context {sk : Collaborators}.
Implicit Types (s : OCluDAL) (indices : list Z).


End PoolInvariantClaim.

Lemma toy_collaborators_lawful :
  @generator_draws_permutations toy /\ @exemplars_are_distinct toy.
Proof.
  split.
  - intros g N. destruct g; simpl; [apply Permutation_rev | apply Permutation_refl].
  - intros d p X. simpl. destruct X as [|x X]; simpl; repeat constructor.
    intros [].
Qed.


(** ** What the loops change and what they keep *)

Ltac run_final := repeat (progress (run_method; cbn [final_state])).

Section ProgressFacts.
Context {sk : Collaborators}.
Implicit Types (s : OCluDAL).

Lemma labelled_extended_refl s : labelled_extended s s.
Proof. exists [], []. now rewrite !app_nil_r. Qed.

Lemma labelled_extended_length s s' :
  labelled_extended s s' ->
  (length (labelled_X_new s) <= length (labelled_X_new s'))%nat.
Proof. intros (x & y & E & _). rewrite E, length_app. lia. Qed.

Lemma labelled_extended_trans s1 s2 s3 :
  labelled_extended s1 s2 -> labelled_extended s2 s3 -> labelled_extended s1 s3.
Proof.
  intros (x1 & y1 & E1 & F1) (x2 & y2 & E2 & F2).
  exists (x1 ++ x2), (y1 ++ y2). rewrite E2, F2, E1, F1, !app_assoc. now split.
Qed.

Lemma progress_refl s : progress s s.
Proof.
  split; [apply labelled_extended_refl|]. split; [repeat split|].
  split; [lia|]. split; [reflexivity|].
  exists []. rewrite app_nil_r. repeat split; constructor.
Qed.

Lemma sorted_app (a b : list IterationRecord) (mid : nat) :
  StronglySorted annotations_le a -> StronglySorted annotations_le b ->
  Forall (fun r => (Number_of_Annotations r <= mid)%nat) a ->
  Forall (fun r => (mid <= Number_of_Annotations r)%nat) b ->
  StronglySorted annotations_le (a ++ b).
Proof.
  intros Sa Sb Fa Fb. induction Sa as [|x a Sa IH Hx]; simpl; [exact Sb|].
  inversion Fa as [|? ? Hxm Fa']; subst. constructor; [now apply IH|].
  apply Forall_app. split; [exact Hx|].
  eapply Forall_impl; [|exact Fb]. intros r Hr. unfold annotations_le.
  cbv beta in *. lia.
Qed.

Lemma progress_trans s1 s2 s3 : progress s1 s2 -> progress s2 s3 -> progress s1 s3.
Proof.
  intros (L1 & (K1 & K2 & K3 & K4) & U1 & T1 & a1 & D1 & F1 & S1)
         (L2 & (J1 & J2 & J3 & J4) & U2 & T2 & a2 & D2 & F2 & S2).
  pose proof (labelled_extended_length L1) as Le1.
  pose proof (labelled_extended_length L2) as Le2.
  split; [eapply labelled_extended_trans; eauto|].
  split; [repeat split; congruence|].
  split; [lia|]. split; [congruence|].
  exists (a1 ++ a2). split; [rewrite D2, D1; now rewrite app_assoc|]. split.
  - apply Forall_app. split.
    + eapply Forall_impl; [|exact F1]. intros r (B & T & Dm & Pr).
      repeat split; auto; lia.
    + eapply Forall_impl; [|exact F2]. intros r (B & T & Dm & Pr).
      repeat split; try congruence; lia.
  - apply (@sorted_app a1 a2 (length (labelled_X_new s2))); auto.
    + eapply Forall_impl; [|exact F1]. intros r (B & _). lia.
    + eapply Forall_impl; [|exact F2]. intros r (B & _). lia.
Qed.

(** A step that appends no record and touches neither the labelled arrays
    nor the settings. *)
Lemma progress_quiet s s' :
  labelled_X_new s' = labelled_X_new s -> labelled_y_new s' = labelled_y_new s ->
  (length (unlabelled_X_new s') <= length (unlabelled_X_new s))%nat ->
  settings_kept s s' -> training_type s' = training_type s ->
  data s' = data s -> progress s s'.
Proof.
  intros EX Ey U K T D.
  split; [exists [], []; now rewrite !app_nil_r|].
  split; [exact K|]. split; [exact U|]. split; [exact T|].
  exists []. rewrite app_nil_r. repeat split; auto; constructor.
Qed.

Ltac progress_chain :=
  repeat first [ eassumption
               | eapply progress_trans; [eassumption|] ].

Lemma keep_from_length_le {A : Type} (ks : list nat) (arr : list A) pos :
  (length (Np.keep_from pos ks arr) <= length arr)%nat.
Proof.
  revert pos. induction arr as [|x arr IH]; intros pos; simpl; [lia|].
  specialize (IH (S pos)). destruct (existsb (Nat.eqb pos) ks); simpl; lia.
Qed.

Lemma delete_length_le {A : Type} (arr out : list A) indices :
  Np.delete arr indices = Some out -> (length out <= length arr)%nat.
Proof.
  unfold Np.delete. destruct (Np.normalize_all (length arr) indices); [|discriminate].
  intros [= <-]. apply keep_from_length_le.
Qed.

Lemma take_length {A : Type} (arr out : list A) indices :
  Np.take arr indices = Some out -> length out = length indices.
Proof.
  unfold Np.take.
  destruct (Np.normalize_all (length arr) indices) as [ks|] eqn:E; [|discriminate].
  destruct (normalize_all_bound _ _ E) as [_ L]. rewrite <- L. clear E L.
  revert out. induction ks as [|k ks IH]; simpl; intros out.
  - now intros [= <-].
  - destruct (nth_error arr k); [|discriminate].
    destruct (Np.gather arr ks); [|discriminate].
    intros [= <-]. simpl. now rewrite (IH l).
Qed.

(** Whatever the batch and whatever the outcome, [oracle_annotations] only
    appends to the labelled arrays, at most one row per index, and never
    lengthens the unlabelled ones. *)
Lemma oracle_annotations_progress indices s :
  let s' := final_state (oracle_annotations indices s) in
  progress s s' /\
  (length (labelled_X_new s') <= length (labelled_X_new s) + length indices)%nat.
Proof.
  unfold oracle_annotations. run_final.
  destruct (Np.take (unlabelled_X_new s) indices) as [rx|] eqn:Ex; run_final.
  2:{ split; [|lia]. apply progress_quiet; repeat split; auto. }
  destruct (Np.take (unlabelled_y_new s) indices) as [ry|] eqn:Ey; run_final.
  2:{ split; [|lia]. apply progress_quiet; repeat split; auto. }
  pose proof (take_length _ _ Ex) as Lx.
  assert (P : forall s',
             labelled_X_new s' = labelled_X_new s ++ rx ->
             labelled_y_new s' = labelled_y_new s ++ ry ->
             (length (unlabelled_X_new s') <= length (unlabelled_X_new s))%nat ->
             settings_kept s s' -> training_type s' = training_type s ->
             data s' = data s ->
             progress s s' /\
             (length (labelled_X_new s') <=
              length (labelled_X_new s) + length indices)%nat).
  { intros s' EX EY U K T D. split.
    - split; [exists rx, ry; now split|]. split; [exact K|].
      split; [exact U|]. split; [exact T|].
      exists []. rewrite app_nil_r. repeat split; auto; constructor.
    - rewrite EX, length_app. lia. }
  destruct (length (labelled_X_new s ++ rx) =? length (labelled_y_new s ++ ry))%nat;
    run_final; [|apply P; repeat split; auto].
  destruct (Np.delete (unlabelled_X_new s) indices) as [ux|] eqn:Dx; run_final;
    [|apply P; repeat split; auto].
  pose proof (delete_length_le _ _ Dx) as Lux.
  destruct (Np.delete (unlabelled_y_new s) indices) as [uy|] eqn:Dy; run_final;
    apply P; repeat split; auto.
Qed.

Lemma run_classification_progress clf s :
  progress s (final_state (run_classification clf s)).
Proof.
  unfold run_classification. run_final.
  split; [exists [], []; run_final; now rewrite !app_nil_r|].
  split; [repeat split|].
  split; [run_final; lia|]. split; [reflexivity|].
  eexists. split; [reflexivity|]. run_final. split.
  - constructor; [|constructor]. cbn. repeat split; lia.
  - constructor; constructor.
Qed.

Lemma train_model_progress s : progress s (final_state (train_model s)).
Proof.
  unfold train_model. run_final.
  pose proof (run_classification_progress
                (clf_fit (labelled_X_new s) (labelled_y_new s))
                (set_calls (calls s ++ [CallFit]) s)) as P.
  destruct (run_classification (clf_fit (labelled_X_new s) (labelled_y_new s))
                               (set_calls (calls s ++ [CallFit]) s));
    cbn [final_state] in *; exact P.
Qed.

Lemma select_batch_progress st P n s :
  progress s (final_state (select_batch st P n s)).
Proof.
  destruct (select_batch_pool st P n s) as (E0 & E1 & E2 & E3 & E4).
  destruct (select_batch_log st P n s) as [D _].
  assert (K : settings_kept s (final_state (select_batch st P n s)) /\
              training_type (final_state (select_batch st P n s)) =
              training_type s).
  { unfold select_batch.
    destruct (st =? "BvSB")%string;
      [rewrite BvSB_Sampling_state; repeat split|].
    destruct (st =? "Random")%string.
    { unfold Random_sampling, np_random_choice. run_final.
      destruct (Z.of_nat (length (unlabelled_X_new s)) <? n)%Z; [repeat split|].
      destruct (n <? 0)%Z; [repeat split|].
      destruct (rng_permutation (np_random s) (length (unlabelled_X_new s))).
      run_final. repeat split. }
    destruct (st =? "Entropy")%string;
      [rewrite Entropy_Sampling_state; repeat split|repeat split]. }
  destruct K as [K T]. apply progress_quiet; auto. rewrite E3. lia.
Qed.

Lemma step2_loop_progress fuel n max_samples st :
  forall s, progress s (final_state (step2_loop fuel n max_samples st s)).
Proof.
  induction fuel as [|fuel IH]; intros s; cbn [step2_loop]; run_final;
    [apply progress_refl|].
  destruct (Z.of_nat (length (labelled_X_new s)) <? max_samples)%Z;
    [|apply progress_refl].
  pose proof (train_model_progress s) as P1.
  destruct (train_model s) as [clf s1|e s1]; cbn [final_state] in *;
    [|exact P1].
  pose proof (run_classification_progress clf s1) as P2.
  destruct (run_classification clf s1) as [out s2|e s2];
    cbn [final_state] in *; [|progress_chain].
  set (P := clf_predict_proba _ _).
  pose proof (select_batch_progress st P n s2) as P3.
  destruct (select_batch st P n s2) as [indices s3|e s3];
    cbn [final_state] in *; [|progress_chain].
  destruct (oracle_annotations_progress indices s3) as [P4 _].
  destruct (oracle_annotations indices s3) as [[] s4|e s4];
    cbn [final_state] in *; [|progress_chain].
  specialize (IH s4). progress_chain.
Qed.

Lemma step2_progress max_iter n max_samples st s :
  progress (set_training_type "BvSB" s)
           (final_state (step2 max_iter n max_samples st s)).
Proof.
  unfold step2. run_final.
  pose proof (step2_loop_progress (Z.to_nat (max_iter + 1)) n max_samples st
                                  (set_training_type "BvSB" s)) as P1.
  destruct (step2_loop (Z.to_nat (max_iter + 1)) n max_samples st
                       (set_training_type "BvSB" s)) as [[] s1|e s1];
    cbn [final_state] in *; [|exact P1].
  pose proof (train_model_progress s1) as P2.
  destruct (train_model s1) as [clf s2|e s2]; cbn [final_state] in *;
    [|progress_chain].
  pose proof (run_classification_progress clf s2) as P3.
  destruct (run_classification clf s2) as [out s3|e s3];
    cbn [final_state] in *; progress_chain.
Qed.

Lemma step1_loop_progress fuel max_samples :
  forall s, progress s (final_state (step1_loop fuel max_samples s)).
Proof.
  induction fuel as [|fuel IH]; intros s; cbn [step1_loop]; run_final;
    [apply progress_refl|].
  destruct (Z.of_nat (length (labelled_X_new s)) <? max_samples)%Z;
    [|apply progress_refl].
  destruct (all_axis0 (masks_of s)) as [novel_mask|]; run_final.
  2:{ apply progress_quiet; repeat split; auto. }
  destruct (0 <? length (Np.compress novel_mask (unlabelled_X_new s)))%nat;
    run_final; [|apply progress_refl].
  set (s1 := set_calls (calls s ++ [CallCluster]) s).
  assert (P1 : progress s s1) by (apply progress_quiet; repeat split; auto).
  set (rX := ap_cluster_centers _ _ _).
  pose proof (representative_indices_of_state (unlabelled_X_new s) rX s1) as St.
  destruct (representative_indices_of (unlabelled_X_new s) rX s1)
    as [indices s2|e s2]; cbn [final_state] in *; subst s2; [|exact P1].
  destruct (oracle_annotations_progress indices s1) as [P3 _].
  destruct (oracle_annotations indices s1) as [[] s3|e s3];
    cbn [final_state] in *; [|progress_chain].
  pose proof (train_model_progress s3) as P4.
  destruct (train_model s3) as [clf s4|e s4]; cbn [final_state] in *;
    [|progress_chain].
  specialize (IH s4). progress_chain.
Qed.

(** [step1] is one [train_model] under the incoming tag, then the tag
    ['AP'] and the loop. *)
Lemma step1_parts max_iter max_samples s :
  exists r s1,
    data s1 = data s ++ [r] /\
    (Number_of_Annotations r = length (labelled_X_new s) /\
     Train_type r = training_type s /\
     rec_damping r = damping s /\ rec_preference r = preference s) /\
    labelled_X_new s1 = labelled_X_new s /\
    labelled_y_new s1 = labelled_y_new s /\
    unlabelled_X_new s1 = unlabelled_X_new s /\
    settings_kept s s1 /\ training_type s1 = "AP"%string /\
    progress s1 (final_state (step1 max_iter max_samples s)).
Proof.
  unfold step1, train_model, run_classification. run_final.
  eexists. eexists. split; [|split; [|split; [|split; [|split; [|split; [|split]]]]]].
  8:{ apply step1_loop_progress. }
  all: run_final; try reflexivity; repeat split.
Qed.

(** X1.  Labelled rows are never removed or reordered: after
    [oracle_annotations], [step1] or [step2], however they end, the labelled
    features and labels are the previous ones with rows appended, at most
    one per index of the batch for [oracle_annotations], and the unlabelled
    array is not longer than before. *)
Theorem labelled_rows_are_never_removed s :
  (forall indices,
      let s' := final_state (oracle_annotations indices s) in
      labelled_extended s s' /\
      (length (unlabelled_X_new s') <= length (unlabelled_X_new s))%nat /\
      (length (labelled_X_new s') <=
       length (labelled_X_new s) + length indices)%nat) /\
  (forall max_iter max_samples,
      let s' := final_state (step1 max_iter max_samples s) in
      labelled_extended s s' /\
      (length (unlabelled_X_new s') <= length (unlabelled_X_new s))%nat) /\
  (forall max_iter n max_samples st,
      let s' := final_state (step2 max_iter n max_samples st s) in
      labelled_extended s s' /\
      (length (unlabelled_X_new s') <= length (unlabelled_X_new s))%nat).
Proof.
  split; [|split].
  - intros indices s'.
    destruct (oracle_annotations_progress indices s) as [(L & _ & U & _) B].
    repeat split; assumption.
  - intros max_iter max_samples s'.
    destruct (step1_parts max_iter max_samples s)
      as (r & s1 & _ & _ & EX & Ey & EU & _ & _ & (L & _ & U & _)).
    destruct L as (nx & ny & E1 & E2). fold s' in E1, E2, U. split.
    + exists nx, ny. rewrite E1, E2, EX, Ey. now split.
    + rewrite EU in U. exact U.
  - intros max_iter n max_samples st s'.
    destruct (step2_progress max_iter n max_samples st s) as (L & _ & U & _).
    split; [exact L | exact U].
Qed.

(** X2.  The column [Number of Annotations] never decreases: the records
    that [step2] (respectively [step1]) appends, however it ends, are in
    non-decreasing order of that column, and each value lies between the
    labelled sizes before and after the call. *)
Theorem annotation_counts_never_decrease s :
  (forall max_iter n max_samples st,
      let s' := final_state (step2 max_iter n max_samples st s) in
      exists added,
        data s' = data s ++ added /\
        StronglySorted annotations_le added /\
        Forall (fun r => (length (labelled_X_new s) <= Number_of_Annotations r
                          <= length (labelled_X_new s'))%nat) added) /\
  (forall max_iter max_samples,
      let s' := final_state (step1 max_iter max_samples s) in
      exists added,
        data s' = data s ++ added /\
        StronglySorted annotations_le added /\
        Forall (fun r => (length (labelled_X_new s) <= Number_of_Annotations r
                          <= length (labelled_X_new s'))%nat) added).
Proof.
  split.
  - intros max_iter n max_samples st s'.
    destruct (step2_progress max_iter n max_samples st s)
      as (_ & _ & _ & _ & added & D & F & S).
    exists added. split; [exact D|]. split; [exact S|].
    eapply Forall_impl; [|exact F]. intros r (B & _). exact B.
  - intros max_iter max_samples s'.
    destruct (step1_parts max_iter max_samples s)
      as (r & s1 & D1 & (N & _) & EX & _ & _ & _ & _
          & (L & _ & _ & _ & added & D & F & S)).
    pose proof (labelled_extended_length L) as Le. fold s' in Le, D, F.
    rewrite EX in *.
    exists ([r] ++ added). split; [rewrite D, D1; now rewrite <- app_assoc|].
    split.
    + apply (@sorted_app [r] added (length (labelled_X_new s))); auto.
      * repeat constructor.
      * constructor; [lia|constructor].
      * eapply Forall_impl; [|exact F]. intros x (B & _). cbv beta. lia.
    + apply Forall_app. split.
      * constructor; [lia|constructor].
      * eapply Forall_impl; [|exact F]. intros x (B & _). exact B.
Qed.

(** X3.  The tag of a record names the phase, not the strategy: every record
    appended by [step2] is tagged ['BvSB'], also under the entropy and the
    random strategy; [step1] appends one record under the tag it finds and
    tags the later ones ['AP'].  All carry the damping and the preference
    of the object. *)
Theorem records_carry_the_phase_tag s :
  (forall max_iter n max_samples st,
      exists added,
        data (final_state (step2 max_iter n max_samples st s)) =
        data s ++ added /\
        Forall (fun r => Train_type r = "BvSB"%string /\
                         rec_damping r = damping s /\
                         rec_preference r = preference s) added) /\
  (forall max_iter max_samples,
      exists first later,
        data (final_state (step1 max_iter max_samples s)) =
        data s ++ first :: later /\
        Train_type first = training_type s /\
        Forall (fun r => Train_type r = "AP"%string) later /\
        Forall (fun r => rec_damping r = damping s /\
                         rec_preference r = preference s) (first :: later)).
Proof.
  split.
  - intros max_iter n max_samples st.
    destruct (step2_progress max_iter n max_samples st s)
      as (_ & _ & _ & _ & added & D & F & _).
    exists added. split; [exact D|].
    eapply Forall_impl; [|exact F]. intros r (_ & T & Dm & Pr).
    repeat split; assumption.
  - intros max_iter max_samples.
    destruct (step1_parts max_iter max_samples s)
      as (r & s1 & D1 & (_ & T & Dm & Pr) & _ & _ & _ & (_ & _ & K3 & K4) & TA
          & (_ & _ & _ & _ & added & D & F & _)).
    exists r, added. split; [rewrite D, D1; now rewrite <- app_assoc|].
    split; [exact T|]. split.
    + eapply Forall_impl; [|exact F]. intros x (_ & Tx & _). congruence.
    + constructor; [now split|].
      eapply Forall_impl; [|exact F]. intros x (_ & _ & Dx & Px).
      split; congruence.
Qed.

(** X4.  The labels the novelty detectors are built for are those found by
    [preprocessing]: neither [oracle_annotations] nor [step1] nor [step2]
    assigns [unique_labels] (nor the dataset, the damping or the
    preference), however they end and whatever labels they annotate. *)
Theorem loops_never_refresh_unique_labels s :
  (forall indices,
      settings_kept s (final_state (oracle_annotations indices s))) /\
  (forall max_iter max_samples,
      settings_kept s (final_state (step1 max_iter max_samples s))) /\
  (forall max_iter n max_samples st,
      settings_kept s (final_state (step2 max_iter n max_samples st s))).
Proof.
  split; [|split].
  - intros indices.
    destruct (oracle_annotations_progress indices s) as [(_ & K & _) _]. exact K.
  - intros max_iter max_samples.
    destruct (step1_parts max_iter max_samples s)
      as (r & s1 & _ & _ & _ & _ & _ & (K1 & K2 & K3 & K4) & _
          & (_ & (J1 & J2 & J3 & J4) & _)).
    repeat split; congruence.
  - intros max_iter n max_samples st.
    destruct (step2_progress max_iter n max_samples st s) as (_ & K & _).
    exact K.
Qed.

End ProgressFacts.

(** ** Edges of the sampling strategies and of the loops *)

Section LoopEdges.
Context {sk : Collaborators}.
Implicit Types (s : OCluDAL) (P : matrix).

(** X5.  With a generator that draws permutations and [0 <= n <= ] the
    number of unlabelled rows, [Random_sampling] returns [n] pairwise
    distinct positions of the unlabelled arrays, leaves the pool alone and
    moves the generator on by one permutation. *)
Theorem Random_sampling_draws_distinct_positions s n :
  generator_draws_permutations ->
  (0 <= n <= Z.of_nat (length (unlabelled_X_new s)))%Z ->
  exists idx s',
    Random_sampling n s = Ok idx s' /\
    Z.of_nat (length idx) = n /\ NoDup idx /\
    in_range (length (unlabelled_X_new s)) idx /\
    same_pool s s' /\
    np_random s' =
    snd (rng_permutation (np_random s) (length (unlabelled_X_new s))).
Proof.
  intros G Hn. unfold Random_sampling, np_random_choice. run_method.
  replace (Z.of_nat (length (unlabelled_X_new s)) <? n)%Z with false
    by (symmetry; apply Z.ltb_ge; lia).
  replace (n <? 0)%Z with false by (symmetry; apply Z.ltb_ge; lia).
  pose proof (G (np_random s) (length (unlabelled_X_new s))) as Perm.
  destruct (rng_permutation (np_random s) (length (unlabelled_X_new s)))
    as [perm g]. cbn [fst snd] in *. run_method.
  assert (Lp : length perm = length (unlabelled_X_new s)).
  { rewrite <- (Permutation_length Perm). apply length_seq. }
  eexists. eexists. split; [reflexivity|]. run_method.
  rewrite slice_to_firstn by lia.
  split; [rewrite length_map, length_firstn; lia|].
  assert (ND : NoDup perm) by (apply (Permutation_NoDup Perm), seq_NoDup).
  split.
  { apply NoDup_map_of_nat.
    rewrite <- (firstn_skipn (Z.to_nat n) perm) in ND.
    eapply NoDup_app_remove_r. exact ND. }
  split; [|split; [repeat split | reflexivity]].
  apply Forall_forall. intros i Hi. apply in_map_iff in Hi as [k [<- Hk]].
  apply In_firstn in Hk.
  apply (Permutation_in _ (Permutation_sym Perm)) in Hk.
  apply in_seq in Hk. lia.
Qed.


Lemma count_calls_single c c' :
  count_calls c [c'] = match c, c' with
                       | CallFit, CallFit => 1%nat
                       | CallCluster, CallCluster => 1%nat
                       | CallAnnotate, CallAnnotate => 1%nat
                       | _, _ => 0%nat
                       end.
Proof. destruct c, c'; reflexivity. Qed.

(** The calls a state has made beyond those of an earlier one, counted. *)
Lemma step2_loop_calls fuel n max_samples st :
  forall s,
  exists newcalls,
    calls (final_state (step2_loop fuel n max_samples st s)) =
    calls s ++ newcalls /\
    (count_calls CallFit newcalls <= fuel)%nat /\
    (count_calls CallAnnotate newcalls <= fuel)%nat /\
    count_calls CallCluster newcalls = 0%nat.
Proof.
  induction fuel as [|fuel IH]; intros s; cbn [step2_loop]; run_final.
  { exists []. rewrite app_nil_r. repeat split; unfold count_calls; simpl; lia. }
  destruct (Z.of_nat (length (labelled_X_new s)) <? max_samples)%Z; run_final.
  2:{ exists []. rewrite app_nil_r. repeat split; unfold count_calls; simpl; lia. }
  destruct (train_then_report s) as (r & clf & E & Eclf).
  revert E. unfold bind at 1.
  destruct (train_model_ok s) as (r1 & E1 & _). rewrite E1. intros E.
  rewrite E. clear E E1. subst clf. run_final.
  set (s2 := set_data _ _). set (P := clf_predict_proba _ _).
  destruct (select_batch_log st P n s2) as [_ C3].
  destruct (select_batch st P n s2) as [indices s3|e s3]; cbn [final_state] in *.
  2:{ exists [CallFit]. rewrite C3. unfold s2. run_final.
      repeat split; unfold count_calls; simpl; lia. }
  destruct (oracle_annotations_log indices s3) as [_ C4].
  destruct (oracle_annotations indices s3) as [[] s4|e s4];
    cbn [final_state] in *.
  2:{ exists [CallFit; CallAnnotate]. rewrite C4, C3. unfold s2. run_final.
      rewrite <- app_assoc. repeat split; unfold count_calls; simpl; lia. }
  destruct (IH s4) as (newcalls & C & F & A & K).
  exists ([CallFit; CallAnnotate] ++ newcalls).
  rewrite C, C4, C3. unfold s2. run_final. rewrite <- !app_assoc.
  split; [reflexivity|]. rewrite !count_calls_app.
  repeat split; unfold count_calls in *; simpl; lia.
Qed.

Lemma step1_loop_calls fuel max_samples :
  forall s,
  exists newcalls,
    calls (final_state (step1_loop fuel max_samples s)) = calls s ++ newcalls /\
    (count_calls CallFit newcalls <= fuel)%nat /\
    (count_calls CallAnnotate newcalls <= fuel)%nat /\
    (count_calls CallCluster newcalls <= fuel)%nat.
Proof.
  induction fuel as [|fuel IH]; intros s; cbn [step1_loop]; run_final.
  { exists []. rewrite app_nil_r. repeat split; unfold count_calls; simpl; lia. }
  destruct (Z.of_nat (length (labelled_X_new s)) <? max_samples)%Z; run_final.
  2:{ exists []. rewrite app_nil_r. repeat split; unfold count_calls; simpl; lia. }
  destruct (all_axis0 (masks_of s)) as [novel_mask|]; run_final.
  2:{ exists [CallCluster]. repeat split; unfold count_calls; simpl; lia. }
  destruct (0 <? length (Np.compress novel_mask (unlabelled_X_new s)))%nat;
    run_final.
  2:{ exists []. rewrite app_nil_r. repeat split; unfold count_calls; simpl; lia. }
  set (s1 := set_calls (calls s ++ [CallCluster]) s).
  set (rX := ap_cluster_centers _ _ _).
  pose proof (representative_indices_of_state (unlabelled_X_new s) rX s1) as St.
  destruct (representative_indices_of (unlabelled_X_new s) rX s1)
    as [indices s2|e s2]; cbn [final_state] in *; subst s2.
  2:{ exists [CallCluster]. repeat split; unfold count_calls; simpl; lia. }
  destruct (oracle_annotations_log indices s1) as [_ C3].
  destruct (oracle_annotations indices s1) as [[] s3|e s3];
    cbn [final_state] in *.
  2:{ exists [CallCluster; CallAnnotate]. rewrite C3. unfold s1. run_final.
      rewrite <- app_assoc. repeat split; unfold count_calls; simpl; lia. }
  destruct (train_model_ok s3) as (r & E & _). rewrite E. run_final.
  destruct (IH (set_data (data s3 ++ [r]) (set_calls (calls s3 ++ [CallFit]) s3)))
    as (newcalls & C & F & A & K).
  exists ([CallCluster; CallAnnotate; CallFit] ++ newcalls).
  rewrite C. run_final. rewrite C3. unfold s1. run_final. rewrite <- !app_assoc.
  split; [reflexivity|]. rewrite !count_calls_app.
  repeat split; unfold count_calls in *; simpl; lia.
Qed.

(** X7.  The iteration caps bound the work: [step2] fits the classifier at
    most [max_iter + 2] times and asks the oracle at most [max_iter + 1]
    times, and never clusters; [step1] fits at most [max_iter + 1] times and
    clusters and asks the oracle at most [max_iter] times each (caps below
    zero count as zero rounds). *)
Theorem iteration_caps_bound_the_calls s :
  (forall max_iter n max_samples st,
      exists newcalls,
        calls (final_state (step2 max_iter n max_samples st s)) =
        calls s ++ newcalls /\
        (count_calls CallFit newcalls <= Z.to_nat (max_iter + 1) + 1)%nat /\
        (count_calls CallAnnotate newcalls <= Z.to_nat (max_iter + 1))%nat /\
        count_calls CallCluster newcalls = 0%nat) /\
  (forall max_iter max_samples,
      exists newcalls,
        calls (final_state (step1 max_iter max_samples s)) =
        calls s ++ newcalls /\
        (count_calls CallFit newcalls <= Z.to_nat max_iter + 1)%nat /\
        (count_calls CallAnnotate newcalls <= Z.to_nat max_iter)%nat /\
        (count_calls CallCluster newcalls <= Z.to_nat max_iter)%nat).
Proof.
  split.
  - intros max_iter n max_samples st. unfold step2. run_final.
    destruct (step2_loop_calls (Z.to_nat (max_iter + 1)) n max_samples st
                               (set_training_type "BvSB" s))
      as (newcalls & C & F & A & K).
    revert C. run_final.
    destruct (step2_loop (Z.to_nat (max_iter + 1)) n max_samples st
                         (set_training_type "BvSB" s)) as [[] s1|e s1];
      cbn [final_state]; intros C.
    2:{ exists newcalls. repeat split; auto; lia. }
    destruct (train_then_report s1) as (r & clf & E & Eclf).
    revert E. unfold bind at 1.
    destruct (train_model_ok s1) as (r1 & E1 & _). rewrite E1. intros E.
    rewrite E. run_final.
    exists (newcalls ++ [CallFit]). rewrite C, <- app_assoc.
    split; [reflexivity|]. rewrite !count_calls_app.
    repeat split; unfold count_calls in *; simpl; lia.
  - intros max_iter max_samples. unfold step1. run_final.
    destruct (train_model_ok s) as (r & E & _). rewrite E. run_final.
    destruct (step1_loop_calls (Z.to_nat max_iter) max_samples
                (set_training_type "AP"
                   (set_data (data s ++ [r])
                             (set_calls (calls s ++ [CallFit]) s))))
      as (newcalls & C & F & A & K).
    exists ([CallFit] ++ newcalls). rewrite C. run_final. rewrite <- app_assoc.
    split; [reflexivity|]. rewrite !count_calls_app.
    repeat split; unfold count_calls in *; simpl; lia.
Qed.

End LoopEdges.

Lemma Random_sampling_draws_distinct_positions_witness :
  exists idx s',
    Random_sampling 2 toy_pool = Ok idx s' /\
    Z.of_nat (length idx) = 2%Z /\ NoDup idx /\
    in_range (length (unlabelled_X_new toy_pool)) idx /\
    same_pool toy_pool s' /\
    np_random s' =
    snd (rng_permutation (np_random toy_pool)
                         (length (unlabelled_X_new toy_pool))).
Proof.
  apply (@Random_sampling_draws_distinct_positions toy toy_pool 2).
  - exact (proj1 toy_collaborators_lawful).
  - simpl. lia.
Defined.


Section LoopBounds.
Context {sk : Collaborators}.
Implicit Types (s : OCluDAL) (P : matrix).

Lemma slice_to_length_le {A : Type} (l : list A) (n : Z) :
  (0 <= n)%Z -> (Z.of_nat (length (Np.slice_to l n)) <= n)%Z.
Proof.
  intros H. unfold Np.slice_to.
  replace (n <? 0)%Z with false by (symmetry; apply Z.ltb_ge; lia).
  rewrite length_firstn. lia.
Qed.

Lemma BvSB_Sampling_length P n s indices s' :
  (0 <= n)%Z -> BvSB_Sampling P n s = Ok indices s' ->
  (Z.of_nat (length indices) <= n)%Z.
Proof.
  intros Hn. unfold BvSB_Sampling, BvSB_diff. run_method.
  destruct (n_classes P =? 0)%nat; [discriminate|].
  destruct (column (n_classes P) (-2) (map Argsort.argsort (rows P)));
    [|discriminate].
  intros [= <- _]. rewrite length_map. now apply slice_to_length_le.
Qed.

Lemma step2_loop_size_bound fuel n max_samples :
  (0 <= n)%Z ->
  forall s,
    (Z.of_nat (length (labelled_X_new
                         (final_state (step2_loop fuel n max_samples "BvSB" s))))
     <= Z.max (Z.of_nat (length (labelled_X_new s))) (max_samples - 1 + n))%Z.
Proof.
  intros Hn. induction fuel as [|fuel IH]; intros s; cbn [step2_loop];
    run_final; [lia|].
  destruct (Z.of_nat (length (labelled_X_new s)) <? max_samples)%Z eqn:Hc;
    run_final; [|lia].
  apply Z.ltb_lt in Hc.
  destruct (train_then_report s) as (r & clf & E & Eclf).
  revert E. unfold bind at 1.
  destruct (train_model_ok s) as (r1 & E1 & _). rewrite E1. intros E.
  rewrite E. clear E E1. subst clf. run_final.
  set (s2 := set_data _ _). set (P := clf_predict_proba _ _).
  change (select_batch "BvSB" P n s2) with (BvSB_Sampling P n s2).
  pose proof (BvSB_Sampling_state P n s2) as St.
  destruct (BvSB_Sampling P n s2) as [indices s3|e s3] eqn:Eb;
    cbn [final_state] in *; subst s3; [|unfold s2; run_final; lia].
  pose proof (BvSB_Sampling_length _ _ Hn Eb) as Li.
  destruct (oracle_annotations_progress indices s2) as [_ B].
  destruct (oracle_annotations indices s2) as [[] s4|e s4];
    cbn [final_state] in *.
  - specialize (IH s4). unfold s2 in B. revert B. run_final. intros B. lia.
  - unfold s2 in B. revert B. run_final. intros B. lia.
Qed.

(** X8.  Under the best-versus-second-best strategy with a batch size
    [n >= 0], [step2] overshoots its size cap by less than one batch:
    however it ends, the labelled set has at most
    [max(size before, max_samples - 1 + n)] rows. *)
Theorem step2_overshoots_by_less_than_a_batch s max_iter n max_samples :
  (0 <= n)%Z ->
  (Z.of_nat (length (labelled_X_new
                       (final_state (step2 max_iter n max_samples "BvSB" s))))
   <= Z.max (Z.of_nat (length (labelled_X_new s))) (max_samples - 1 + n))%Z.
Proof.
  intros Hn. unfold step2. run_final.
  pose proof (@step2_loop_size_bound (Z.to_nat (max_iter + 1)) n max_samples Hn
                (set_training_type "BvSB" s)) as B.
  revert B. run_final.
  destruct (step2_loop (Z.to_nat (max_iter + 1)) n max_samples "BvSB"
                       (set_training_type "BvSB" s)) as [[] s1|e s1];
    cbn [final_state]; intros B; [|exact B].
  destruct (train_then_report s1) as (r & clf & E & Eclf).
  revert E. unfold bind at 1.
  destruct (train_model_ok s1) as (r1 & E1 & _). rewrite E1. intros E.
  rewrite E. run_final. exact B.
Qed.

Lemma first_match_least sample X :
  forall pos i, first_match sample pos X = Some i ->
    (pos <= i < pos + length X)%nat /\ nth (i - pos) X [] = sample /\
    forall j, (j < i - pos)%nat -> nth j X [] <> sample.
Proof.
  induction X as [|x rest IH]; intros pos i; simpl; [discriminate|].
  destruct (row_eq_dec x sample) as [->|N].
  - intros [= <-]. rewrite Nat.sub_diag. repeat split; try lia.
  - intros H. destruct (IH _ _ H) as (B & E & Least).
    replace (i - pos)%nat with (S (i - S pos)) by lia.
    repeat split; try lia; [exact E|].
    intros [|j] Hj; simpl; [exact N|]. apply Least. lia.
Qed.

Lemma first_match_none sample X :
  forall pos, first_match sample pos X = None <-> ~ In sample X.
Proof.
  induction X as [|x rest IH]; intros pos; simpl.
  - split; [intros _ []|reflexivity].
  - destruct (row_eq_dec x sample) as [->|N].
    + split; [discriminate|]. intros H. exfalso. apply H. now left.
    + rewrite IH. split.
      * intros H [E|Hin]; [now apply N|now apply H].
      * intros H Hin. apply H. now right.
Qed.

(** X9.  An exemplar is mapped to the first row equal to it: when the
    look-up of [step1] returns, every index is a position of the matrix, the
    row there equals its exemplar and no earlier row does; it raises
    [IndexError] exactly when some exemplar is not a row of the matrix; in
    both cases the object is as before. *)
Theorem exemplar_lookup_takes_first_match (X rX : list row) s :
  final_state (representative_indices_of X rX s) = s /\
  (forall indices s',
      representative_indices_of X rX s = Ok indices s' ->
      Forall2 (fun i sample =>
                 (0 <= i < Z.of_nat (length X))%Z /\
                 nth (Z.to_nat i) X [] = sample /\
                 forall j, (j < Z.to_nat i)%nat -> nth j X [] <> sample)
              indices rX) /\
  ((exists s', representative_indices_of X rX s = Raise IndexError s') <->
   exists sample, In sample rX /\ ~ In sample X) /\
  (forall e s', representative_indices_of X rX s = Raise e s' ->
                e = IndexError).
Proof.
  split; [apply representative_indices_of_state|].
  induction rX as [|sample rest IH]; simpl; run_method.
  - split; [intros indices s' [= <- _]; constructor|]. split.
    + split; [intros [s' H]; discriminate|intros (x & [] & _)].
    + intros e s' H. discriminate.
  - destruct IH as (IHok & IHerr & IHonly).
    destruct (first_match sample 0 X) as [i|] eqn:E.
    + destruct (first_match_least _ _ _ E) as (B & En & Least).
      rewrite Nat.sub_0_r in *.
      destruct (representative_indices_of X rest s) as [others s1|e s1] eqn:Er.
      * split; [|split].
        -- intros indices s' [= <- _]. constructor; [|now apply (IHok _ s1)].
           rewrite Nat2Z.id. repeat split; try lia; assumption.
        -- split; [intros [s' H]; discriminate|].
           intros (x & [<-|Hin] & Hx).
           ++ exfalso. apply Hx. rewrite <- En. apply nth_In. lia.
           ++ destruct IHerr as [_ IHerr].
              destruct IHerr as [s' H]; [exists x; now split|discriminate].
        -- intros e s' H. discriminate.
      * split; [intros indices s' H; discriminate|].
        assert (Ee : e = IndexError) by (eapply IHonly; reflexivity).
        subst e. split.
        -- split; [|intros _; eexists; reflexivity].
           intros _. destruct IHerr as [IHerr _].
           destruct IHerr as (x & Hin & Hx); [eexists; reflexivity|].
           exists x. split; [now right|exact Hx].
        -- intros e s' [= <- _]. reflexivity.
    + apply first_match_none in E. split; [intros indices s' H; discriminate|].
      split.
      * split; [|intros _; eexists; reflexivity].
        intros _. exists sample. split; [now left|exact E].
      * intros e s' [= <- _]. reflexivity.
Qed.

(** X10.  The margin of a row is never negative, and it is zero exactly when
    the highest value of the row is reached at two positions: on a matrix
    with two columns or more [BvSB_diff] returns one such margin per row. *)
Theorem BvSB_margins_are_nonnegative P s :
  wf_matrix P -> (2 <= n_classes P)%nat ->
  exists diff,
    BvSB_diff P s = Ok diff s /\
    Forall2 (fun r m =>
               (0 <= m)%R /\
               (m = 0%R <->
                exists i j, i <> j /\ (i < length r)%nat /\ (j < length r)%nat /\
                            nth i r 0%R = nth j r 0%R /\
                            forall k, (k < length r)%nat ->
                                      (nth k r 0 <= nth i r 0)%R))
            (rows P) diff.
Proof.
  intros W C. exists (map row_margin (rows P)).
  split; [now apply BvSB_diff_ok|].
  unfold wf_matrix in W. induction (rows P) as [|r m IH]; simpl; [constructor|].
  inversion W as [|? ? Lr W']; subst. constructor; [|now apply IH].
  destruct (@row_margin_is_margin r) as (t1 & t2 & T & ->); [lia|].
  destruct T as (i & j & Hij & Hi & Hj & E1 & E2 & Hmax & Hrest).
  assert (Hle : (t2 <= t1)%R) by (rewrite <- E2; now apply Hmax).
  split; [lra|]. split.
  - intros Hz. exists i, j. repeat split; auto; [|intros k Hk; rewrite E1; auto].
    rewrite E1, E2. lra.
  - intros (i' & j' & Hne & Hi' & Hj' & Eq & Hmax').
    assert (Et : nth i' r 0%R = t1).
    { apply Rle_antisym; [now apply Hmax|]. rewrite <- E1. now apply Hmax'. }
    assert (Hge : (t1 <= t2)%R).
    { destruct (Nat.eq_dec i' i) as [->|Ni].
      - rewrite <- Et, Eq. apply Hrest; [exact Hj'|congruence].
      - rewrite <- Et. now apply Hrest. }
    lra.
Qed.

End LoopBounds.

Lemma step2_overshoots_by_less_than_a_batch_witness :
  (Z.of_nat (length (labelled_X_new
                       (final_state (step2 5 2 2 "BvSB" toy_pool))))
   <= Z.max (Z.of_nat (length (labelled_X_new toy_pool))) (2 - 1 + 2))%Z.
Proof.
  apply (@step2_overshoots_by_less_than_a_batch toy toy_pool 5 2 2). lia.
Defined.

Lemma BvSB_margins_are_nonnegative_witness :
  exists diff,
    BvSB_diff example_probabilities toy_pool = Ok diff toy_pool /\
    Forall2 (fun r m =>
               (0 <= m)%R /\
               (m = 0%R <->
                exists i j, i <> j /\ (i < length r)%nat /\ (j < length r)%nat /\
                            nth i r 0%R = nth j r 0%R /\
                            forall k, (k < length r)%nat ->
                                      (nth k r 0 <= nth i r 0)%R))
            (rows example_probabilities) diff.
Proof.
  apply (@BvSB_margins_are_nonnegative toy example_probabilities toy_pool).
  - exact example_wf.
  - simpl. lia.
Defined.

Section LoopCaps.
Context {sk : Collaborators}.
Implicit Types (s : OCluDAL).


(** X12.  A batch size of zero under the entropy strategy annotates the
    whole pool at once: when the classifier gives one row of probabilities
    per unlabelled row and a round is run, [step2] with [n = 0] and
    ['Entropy'] ends with no unlabelled row left and every row labelled. *)
Theorem step2_entropy_zero_batch_takes_the_pool s max_iter max_samples :
  lockstep s ->
  (forall clf X, n_samples (clf_predict_proba clf X) = length X) ->
  (0 <= max_iter)%Z ->
  (Z.of_nat (length (labelled_X_new s)) < max_samples)%Z ->
  let s' := final_state (step2 max_iter 0 max_samples "Entropy" s) in
  unlabelled_X_new s' = [] /\
  (length (labelled_X_new s) + length (unlabelled_X_new s)
   <= length (labelled_X_new s'))%nat.
Proof.
  intros L Shape Hm Hs. unfold step2. run_final.
  destruct (Z.to_nat (max_iter + 1)) as [|fuel] eqn:F; [lia|].
  cbn [step2_loop]. run_final.
  replace (Z.of_nat (length (labelled_X_new s)) <? max_samples)%Z with true
    by (symmetry; apply Z.ltb_lt; lia).
  destruct (train_then_report (set_training_type "BvSB" s))
    as (r & clf & E & Eclf).
  revert E. unfold bind at 1.
  destruct (train_model_ok (set_training_type "BvSB" s)) as (r1 & E1 & _).
  rewrite E1. run_final. intros E. rewrite E. clear E E1. run_final.
  set (s2 := set_data _ _). set (P := clf_predict_proba _ _).
  change (select_batch "Entropy" P 0 s2) with (Entropy_Sampling P 0 s2).
  rewrite Entropy_Sampling_ok, slice_from_zero. run_final.
  set (idx := map Z.of_nat (Argsort.argsort (entropy_list P))).
  assert (LP : length (entropy_list P) = length (unlabelled_X_new s)).
  { rewrite entropy_list_length. unfold P. apply Shape. }
  assert (IR : in_range (length (unlabelled_X_new s2)) idx).
  { apply Forall_forall. intros i Hi. apply in_map_iff in Hi as [k [<- Hk]].
    apply argsort_In in Hk. unfold s2. run_final. lia. }
  assert (ND : NoDup idx) by (apply NoDup_map_of_nat, argsort_NoDup).
  assert (Li : length idx = length (unlabelled_X_new s)).
  { unfold idx. now rewrite length_map, argsort_length. }
  assert (L2 : lockstep s2) by exact L.
  pose proof (normalize_all_positions IR) as En.
  rewrite (oracle_annotations_ok _ L2 En). run_final.
  set (s4 := annotated (map Z.to_nat idx) s2).
  destruct (normalize_all_bound _ _ En) as [Bk Lk].
  pose proof (keep_from_length (unlabelled_X_new s2)
                (positions_NoDup IR ND) Bk) as Lkeep.
  assert (U4 : length (unlabelled_X_new s4) = 0%nat).
  { unfold s4, annotated. run_final. revert Lkeep. unfold s2. run_final.
    rewrite length_map. lia. }
  assert (X4 : length (labelled_X_new s4) =
               (length (labelled_X_new s) + length (unlabelled_X_new s))%nat).
  { unfold s4, annotated. run_final. unfold s2. run_final.
    rewrite length_app, !length_map. lia. }
  assert (Fin : forall sf, progress s4 sf ->
                  unlabelled_X_new sf = [] /\
                  (length (labelled_X_new s) + length (unlabelled_X_new s)
                   <= length (labelled_X_new sf))%nat).
  { intros sf (Le & _ & U & _).
    apply labelled_extended_length in Le. rewrite U4 in U. split; [|lia].
    destruct (unlabelled_X_new sf); [reflexivity|]. cbn [length] in U. lia. }
  pose proof (step2_loop_progress fuel 0 max_samples "Entropy" s4) as P1.
  destruct (step2_loop fuel 0 max_samples "Entropy" s4) as [[] s5|e s5];
    cbn [final_state] in *; [|now apply Fin].
  pose proof (train_model_progress s5) as P2.
  destruct (train_model s5) as [clf5 s6|e s6]; cbn [final_state] in *;
    [|apply Fin; eapply progress_trans; eauto].
  pose proof (run_classification_progress clf5 s6) as P3.
  destruct (run_classification clf5 s6) as [out s7|e s7];
    cbn [final_state] in *; apply Fin;
    (eapply progress_trans; [eassumption|]);
    (eapply progress_trans; [eassumption|]); assumption.
Qed.

End LoopCaps.

Lemma step2_entropy_zero_batch_takes_the_pool_witness :
  let s' := final_state (step2 0 0 10 "Entropy" toy_pool) in
  unlabelled_X_new s' = [] /\
  (length (labelled_X_new toy_pool) + length (unlabelled_X_new toy_pool)
   <= length (labelled_X_new s'))%nat.
Proof.
  apply (@step2_entropy_zero_batch_takes_the_pool toy toy_pool 0 10).
  - split; reflexivity.
  - intros clf X. unfold n_samples. simpl. apply length_map.
  - lia.
  - simpl. lia.
Defined.

(** ** The split of the frame *)

Lemma nodup_length_iff (l : list nat) :
  (length (nodup Nat.eq_dec l) <= length l)%nat /\
  (length (nodup Nat.eq_dec l) = length l <-> NoDup l).
Proof.
  induction l as [|x l [Le Iff]]; simpl.
  - split; [lia|]. split; [constructor|reflexivity].
  - destruct (in_dec Nat.eq_dec x l) as [Hin|Hn]; simpl.
    + split; [lia|]. split; [lia|].
      intros ND. inversion ND; subst. contradiction.
    + split; [lia|]. split.
      * intros [= E]. constructor; [exact Hn | now apply Iff].
      * intros ND. inversion ND; subst. f_equal. now apply Iff.
Qed.

Lemma keep_from_same_set {A : Type} (ks ks' : list nat) (arr : list A) :
  (forall k, In k ks <-> In k ks') ->
  forall pos, Np.keep_from pos ks arr = Np.keep_from pos ks' arr.
Proof.
  intros Same. induction arr as [|x arr IH]; intros pos; simpl; [reflexivity|].
  assert (E : existsb (Nat.eqb pos) ks = existsb (Nat.eqb pos) ks').
  { destruct (existsb (Nat.eqb pos) ks) eqn:E1;
      destruct (existsb (Nat.eqb pos) ks') eqn:E2; try reflexivity.
    - apply existsb_exists in E1 as [k [Hk Ek]]. apply Same in Hk.
      assert (existsb (Nat.eqb pos) ks' = true)
        by (apply existsb_exists; eauto). congruence.
    - apply existsb_exists in E2 as [k [Hk Ek]]. apply Same in Hk.
      assert (existsb (Nat.eqb pos) ks = true)
        by (apply existsb_exists; eauto). congruence. }
  rewrite E, IH. reflexivity.
Qed.

(** Deleting positions shortens an array by the number of distinct ones. *)
Lemma keep_from_length_distinct {A : Type} (ks : list nat) (arr : list A) :
  Forall (fun k => (k < length arr)%nat) ks ->
  (length (Np.keep_from 0 ks arr) + length (nodup Nat.eq_dec ks))%nat
  = length arr.
Proof.
  intros F.
  rewrite (@keep_from_same_set A ks (nodup Nat.eq_dec ks) arr).
  - apply keep_from_length; [apply NoDup_nodup|].
    apply Forall_forall. intros k Hk. apply nodup_In in Hk.
    rewrite Forall_forall in F. now apply F.
  - intros k. symmetry. apply nodup_In.
Qed.

Lemma in_range_forallb (len : nat) (ix : list Z) :
  forallb (fun i => (0 <=? i) && (i <? Z.of_nat len))%Z ix = true <->
  in_range len ix.
Proof.
  unfold in_range. rewrite forallb_forall, Forall_forall.
  split; intros H i Hi; specialize (H i Hi).
  - apply andb_prop in H as [H1 H2].
    apply Z.leb_le in H1. apply Z.ltb_lt in H2. lia.
  - apply andb_true_intro. split; [apply Z.leb_le | apply Z.ltb_lt]; lia.
Qed.

Lemma in_range_numpy (len : nat) (ix : list Z) :
  in_range len ix -> numpy_in_range len ix.
Proof.
  unfold in_range, numpy_in_range. intros H.
  eapply Forall_impl; [|exact H]. intros i Hi. cbv beta in *. lia.
Qed.

Lemma drop_rows_none (df : DataFrame) (ix : list Z) :
  drop_rows df ix = None <-> ~ in_range (length (records df)) ix.
Proof.
  unfold drop_rows.
  destruct (forallb _ ix) eqn:E.
  - split; [discriminate|]. intros H. exfalso. apply H.
    now apply in_range_forallb.
  - split; [|reflexivity]. intros _ H. apply in_range_forallb in H. congruence.
Qed.

Lemma iloc_none (df : DataFrame) (ix : list Z) :
  iloc df ix = None <-> ~ numpy_in_range (length (records df)) ix.
Proof.
  unfold iloc, Np.take.
  destruct (Np.normalize_all (length (records df)) ix) as [ks|] eqn:E.
  - rewrite (gather_some no_record (records df))
      by (apply (normalize_all_bound _ _ E)).
    split; [discriminate|]. intros H. apply normalize_all_none in H. congruence.
  - split; [intros _|reflexivity]. now apply normalize_all_none.
Qed.

Lemma compress_map_filter {A : Type} (f : A -> bool) (l : list A) :
  Np.compress (map f l) l = filter f l.
Proof.
  induction l as [|x l IH]; simpl; [reflexivity|].
  rewrite IH. reflexivity.
Qed.

Lemma compress_length {A B : Type} (f : A -> bool) (l : list A) (r : list B) :
  length r = length l ->
  length (Np.compress (map f l) r) = length (filter f l).
Proof.
  revert r. induction l as [|x l IH]; intros [|y r]; simpl; try discriminate;
    [reflexivity|].
  intros [= E]. destruct (f x); simpl; now rewrite IH.
Qed.

Lemma without_identifiers_records (df : DataFrame) :
  length (records (without_identifiers df)) = length (records df) /\
  map snd (records (without_identifiers df)) = map snd (records df).
Proof.
  unfold without_identifiers.
  destruct (has_column df "Subject" && has_column df "Index"); [|now split].
  unfold drop_columns. cbn [records]. rewrite length_map, map_map. now split.
Qed.

Lemma in_range_dec (len : nat) (ix : list Z) :
  {in_range len ix} + {~ in_range len ix}.
Proof.
  apply Forall_dec. intros i.
  destruct (Z_le_dec 0 i); destruct (Z_lt_dec i (Z.of_nat len));
    (left; lia) || (right; lia).
Qed.

Lemma numpy_in_range_dec (len : nat) (ix : list Z) :
  {numpy_in_range len ix} + {~ numpy_in_range len ix}.
Proof.
  apply Forall_dec. intros i.
  destruct (Z_le_dec (- Z.of_nat len) i); destruct (Z_lt_dec i (Z.of_nat len));
    (left; lia) || (right; lia).
Qed.

Section SplitFacts.
Context {sk : Collaborators} {pp : Preprocessor}.
Implicit Types (su : Setup) (ix : list Z).

Lemma initialise_data_ok su ix :
  Z.of_nat (length ix) = su_annotations su ->
  in_range (length (records (su_df_main su))) ix ->
  initialise_data (Some ix) su =
  inr {| su_df_main := su_df_main su;
         su_annotations := su_annotations su;
         su_damping := su_damping su;
         su_preference := su_preference su;
         su_labelled :=
           Some (without_identifiers
                   {| columns := columns (su_df_main su);
                      records := rows_at no_record
                                         (records (su_df_main su)) ix |});
         su_unlabelled :=
           Some (without_identifiers
                   {| columns := columns (su_df_main su);
                      records := rows_kept no_record
                                           (records (su_df_main su)) ix |});
         su_np_random := su_np_random su |}.
Proof.
  intros Ec Hin. unfold initialise_data.
  replace (Z.of_nat (length ix) =? su_annotations su)%Z with true
    by (symmetry; now apply Z.eqb_eq).
  unfold iloc.
  rewrite (take_some no_record _ _ (normalize_all_positions Hin)).
  unfold drop_rows.
  replace (forallb _ ix) with true by (symmetry; now apply in_range_forallb).
  rewrite (keep_from_rows_kept no_record _ Hin).
  rewrite map_map. unfold without_identifiers, has_column, rows_at.
  cbn [columns records].
  destruct (existsb (String.eqb "Subject") (columns (su_df_main su))
            && existsb (String.eqb "Index") (columns (su_df_main su)));
    reflexivity.
Qed.

Lemma initialise_data_count_error su ix :
  Z.of_nat (length ix) <> su_annotations su ->
  initialise_data (Some ix) su = inl (Core AssertionError).
Proof.
  intros Ec. unfold initialise_data.
  replace (Z.of_nat (length ix) =? su_annotations su)%Z with false
    by (symmetry; now apply Z.eqb_neq).
  reflexivity.
Qed.

Lemma initialise_data_index_error su ix :
  Z.of_nat (length ix) = su_annotations su ->
  ~ numpy_in_range (length (records (su_df_main su))) ix ->
  initialise_data (Some ix) su = inl (Core IndexError).
Proof.
  intros Ec Hn. unfold initialise_data.
  replace (Z.of_nat (length ix) =? su_annotations su)%Z with true
    by (symmetry; now apply Z.eqb_eq).
  apply iloc_none in Hn. now rewrite Hn.
Qed.

Lemma initialise_data_key_error su ix :
  Z.of_nat (length ix) = su_annotations su ->
  numpy_in_range (length (records (su_df_main su))) ix ->
  ~ in_range (length (records (su_df_main su))) ix ->
  initialise_data (Some ix) su = inl KeyError.
Proof.
  intros Ec Hnp Hn. unfold initialise_data.
  replace (Z.of_nat (length ix) =? su_annotations su)%Z with true
    by (symmetry; now apply Z.eqb_eq).
  destruct (iloc (su_df_main su) ix) as [labelled|] eqn:Ei.
  - apply drop_rows_none in Hn. now rewrite Hn.
  - apply iloc_none in Ei. contradiction.
Qed.

Lemma initialise_data_returns_iff su ix :
  (exists su', initialise_data (Some ix) su = inr su') <->
  Z.of_nat (length ix) = su_annotations su /\
  in_range (length (records (su_df_main su))) ix.
Proof.
  split.
  - intros [su' E].
    destruct (Z.eq_dec (Z.of_nat (length ix)) (su_annotations su)) as [Ec|Ec];
      [|rewrite initialise_data_count_error in E by exact Ec; discriminate].
    split; [exact Ec|].
    destruct (numpy_in_range_dec (length (records (su_df_main su))) ix)
      as [Hnp|Hnp];
      [|rewrite initialise_data_index_error in E by assumption; discriminate].
    destruct (in_range_dec (length (records (su_df_main su))) ix)
      as [Hin|Hin]; [exact Hin|].
    rewrite initialise_data_key_error in E by assumption. discriminate.
  - intros [Ec Hin]. eexists. apply (initialise_data_ok _ Ec Hin).
Qed.

(** The sizes of the two parts of a split at positions of the frame. *)
Lemma split_sizes (df : DataFrame) ix :
  in_range (length (records df)) ix ->
  let labelled :=
    without_identifiers
      {| columns := columns df; records := rows_at no_record (records df) ix |} in
  let unlabelled :=
    without_identifiers
      {| columns := columns df; records := rows_kept no_record (records df) ix |} in
  length (records labelled) = length ix /\
  ((length (records labelled) + length (records unlabelled))%nat
   = length (records df) <-> NoDup ix).
Proof.
  intros Hin labelled unlabelled.
  destruct (without_identifiers_records
              {| columns := columns df;
                 records := rows_at no_record (records df) ix |}) as [L1 _].
  destruct (without_identifiers_records
              {| columns := columns df;
                 records := rows_kept no_record (records df) ix |}) as [L2 _].
  unfold labelled, unlabelled. rewrite L1, L2. cbn [records].
  unfold rows_at at 1 2. rewrite length_map. split; [reflexivity|].
  rewrite <- (keep_from_rows_kept no_record (records df) Hin).
  destruct (normalize_all_bound _ _ (normalize_all_positions Hin)) as [B Lk].
  pose proof (keep_from_length_distinct (records df) B) as Lkeep.
  destruct (nodup_length_iff (map Z.to_nat ix)) as [Le Niff].
  rewrite length_map in *.
  assert (NI : NoDup (map Z.to_nat ix) <-> NoDup ix).
  { split; [apply NoDup_map_inv | now apply positions_NoDup with (length (records df))]. }
  rewrite <- NI, <- Niff. lia.
Qed.

(** X13.  What [initialise_data] accepts as indices: it first compares their
    number with [annotations] ([AssertionError]); then an index outside
    [-len <= i < len] is an [IndexError] of [iloc], and a negative one
    inside it, which [iloc] takes from the end, is a [KeyError] of [drop];
    it returns exactly when the count is right and every index is a
    position [0 <= i < len], repeated or not. *)
Theorem initialise_data_accepts_positions su ix :
  let len := length (records (su_df_main su)) in
  (Z.of_nat (length ix) <> su_annotations su ->
   initialise_data (Some ix) su = inl (Core AssertionError)) /\
  (Z.of_nat (length ix) = su_annotations su ->
   ~ numpy_in_range len ix ->
   initialise_data (Some ix) su = inl (Core IndexError)) /\
  (Z.of_nat (length ix) = su_annotations su ->
   numpy_in_range len ix -> ~ in_range len ix ->
   initialise_data (Some ix) su = inl KeyError) /\
  ((exists su', initialise_data (Some ix) su = inr su') <->
   Z.of_nat (length ix) = su_annotations su /\ in_range len ix).
Proof.
  intros len. split; [apply initialise_data_count_error|].
  split; [apply initialise_data_index_error|].
  split; [apply initialise_data_key_error|].
  apply initialise_data_returns_iff.
Qed.

End SplitFacts.

(** X16.  The identifier columns go together or not at all: a frame with
    both a [Subject] and an [Index] column loses exactly these two, in the
    names and in every row; a frame with only one of them keeps it among the
    features.  Rows and labels are the same in number and order, and rows
    stay as wide as the names. *)
Theorem identifier_columns_go_together (df : DataFrame) :
  wf_frame df ->
  let out := without_identifiers df in
  wf_frame out /\
  length (records out) = length (records df) /\
  map snd (records out) = map snd (records df) /\
  (has_column df "Subject" = true -> has_column df "Index" = true ->
   columns out =
   filter (fun c => negb ((c =? "Subject") || (c =? "Index"))%string)
          (columns df) /\
   has_column out "Subject" = false /\ has_column out "Index" = false) /\
  (has_column df "Subject" = false \/ has_column df "Index" = false ->
   out = df).
Proof.
  intros W out. destruct (without_identifiers_records df) as [Len Lab].
  split; [|split; [exact Len|split; [exact Lab|split]]].
  - unfold out, without_identifiers.
    destruct (has_column df "Subject" && has_column df "Index"); [|exact W].
    unfold wf_frame, drop_columns in *. cbn [records columns].
    apply Forall_forall. intros r Hr. apply in_map_iff in Hr as [r0 [<- Hr0]].
    rewrite Forall_forall in W. specialize (W r0 Hr0). cbn [fst].
    rewrite (compress_length _ (columns df) (fst r0) W).
    now rewrite compress_map_filter.
  - intros HS HI. unfold out, without_identifiers. rewrite HS, HI. cbn [andb].
    unfold drop_columns, has_column. cbn [columns].
    rewrite compress_map_filter.
    assert (E : filter (fun c => negb (existsb (String.eqb c)
                                               ["Subject"; "Index"]%string))
                       (columns df) =
                filter (fun c => negb ((c =? "Subject") || (c =? "Index"))%string)
                       (columns df)).
    { apply filter_ext. intros c. cbn [existsb]. now rewrite orb_false_r. }
    rewrite E. split; [reflexivity|].
    split.
    + destruct (existsb (String.eqb "Subject") (filter _ (columns df))) eqn:X;
        [|reflexivity].
      apply existsb_exists in X as [c [Hc Ec]]. apply String.eqb_eq in Ec.
      subst c. apply filter_In in Hc as [_ Hc]. discriminate.
    + destruct (existsb (String.eqb "Index") (filter _ (columns df))) eqn:X;
        [|reflexivity].
      apply existsb_exists in X as [c [Hc Ec]]. apply String.eqb_eq in Ec.
      subst c. apply filter_In in Hc as [_ Hc]. discriminate.
  - intros [H|H]; unfold out, without_identifiers; rewrite H;
      [reflexivity | now rewrite andb_false_r].
Qed.

Section SplitProperties.
Context {sk : Collaborators} {pp : Preprocessor}.
Implicit Types (su : Setup) (ix : list Z).

(** X14.  When [initialise_data] returns on given indices, the labelled part
    holds the rows at those positions in the order given and the unlabelled
    part the other rows in their order (each without the identifier columns
    when both exist); the generator is untouched; and the two sizes add up
    to the size of the frame exactly when the indices are pairwise
    distinct: with a repeated index it returns all the same. *)
Theorem initialise_data_splits_by_position su ix su' :
  initialise_data (Some ix) su = inr su' ->
  let df := su_df_main su in
  exists labelled unlabelled,
    su_labelled su' = Some labelled /\ su_unlabelled su' = Some unlabelled /\
    labelled =
      without_identifiers
        {| columns := columns df;
           records := rows_at no_record (records df) ix |} /\
    unlabelled =
      without_identifiers
        {| columns := columns df;
           records := rows_kept no_record (records df) ix |} /\
    length (records labelled) = length ix /\
    ((length (records labelled) + length (records unlabelled))%nat
     = length (records df) <-> NoDup ix) /\
    su_df_main su' = df /\ su_np_random su' = su_np_random su.
Proof.
  intros E df.
  destruct (proj1 (initialise_data_returns_iff su ix)) as [Ec Hin]; [eauto|].
  rewrite (initialise_data_ok _ Ec Hin) in E. injection E as <-.
  cbn [su_labelled su_unlabelled su_df_main su_np_random]. fold df.
  destruct (split_sizes df Hin) as [L Iff].
  eexists. eexists. split; [reflexivity|]. split; [reflexivity|].
  split; [reflexivity|]. split; [reflexivity|].
  split; [exact L|]. split; [exact Iff|now split].
Qed.



End SplitProperties.

(** ** The labels found by [preprocessing] *)

Section UniqueLabels.
Import OrdersEx.

Lemma insert_unique_In (x : label) (l : list label) (y : label) :
  In y (insert_unique x l) <-> y = x \/ In y l.
Proof.
  induction l as [|z l IH]; simpl; [intuition|].
  destruct (String_as_OT.compare_spec x z) as [E|L|G]; simpl.
  - unfold String_as_OT.eq in E. subst z. intuition.
  - intuition.
  - rewrite IH. intuition.
Qed.

Lemma insert_unique_sorted (x : label) (l : list label) :
  StronglySorted String_as_OT.lt l ->
  StronglySorted String_as_OT.lt (insert_unique x l).
Proof.
  induction 1 as [|z l S IH F]; simpl; [repeat constructor|].
  destruct (String_as_OT.compare_spec x z) as [E|L|G].
  - now constructor.
  - constructor; [now constructor|]. constructor; [exact L|].
    eapply Forall_impl; [|exact F]. intros y Hy.
    eapply String_as_OT.lt_strorder; eassumption.
  - constructor; [exact IH|]. apply Forall_forall. intros y Hy.
    apply insert_unique_In in Hy as [->|Hy]; [exact G|].
    rewrite Forall_forall in F. now apply F.
Qed.

Lemma sorted_lt_NoDup (l : list label) :
  StronglySorted String_as_OT.lt l -> NoDup l.
Proof.
  induction 1 as [|z l S IH F]; constructor; [|exact IH].
  intros Hin. rewrite Forall_forall in F. specialize (F z Hin).
  eapply String_as_OT.lt_strorder. exact F.
Qed.

Lemma np_unique_In (y : list label) (l : label) :
  In l (np_unique y) <-> In l y.
Proof.
  induction y as [|x y IH]; simpl; [tauto|].
  rewrite insert_unique_In, IH. intuition.
Qed.

Lemma np_unique_sorted (y : list label) :
  StronglySorted String_as_OT.lt (np_unique y).
Proof.
  induction y as [|x y IH]; simpl; [constructor|].
  now apply insert_unique_sorted.
Qed.

Lemma np_unique_count (y : list label) :
  length (np_unique y) = count_unique y.
Proof.
  unfold count_unique. apply Permutation_length.
  apply NoDup_Permutation;
    [apply sorted_lt_NoDup, np_unique_sorted | apply NoDup_nodup |].
  intros l. rewrite np_unique_In. symmetry. apply nodup_In.
Qed.

End UniqueLabels.

(** ** From the frame to the end of the run *)

Lemma NoDup_map_on {A B : Type} (f : A -> B) (l : list A) :
  (forall x y, In x l -> In y l -> f x = f y -> x = y) ->
  NoDup l -> NoDup (map f l).
Proof.
  intros Inj ND. induction ND as [|x l Hn ND IH]; simpl; constructor.
  - intros Hin. apply in_map_iff in Hin as [y [E Hy]].
    assert (y = x) by (apply Inj; simpl; auto). subst. contradiction.
  - apply IH. intros a b Ha Hb. apply Inj; simpl; auto.
Qed.

Lemma positions_labelled_spec (rs : list (row * label)) :
  forall pos,
    Forall (fun i => (Z.of_nat pos <= i < Z.of_nat (pos + length rs))%Z /\
                     starting_label
                       (snd (nth (Z.to_nat i - pos) rs no_record)))
           (positions_labelled pos rs) /\
    NoDup (positions_labelled pos rs).
Proof.
  induction rs as [|r rs IH]; intros pos; simpl; [split; constructor|].
  destruct (IH (S pos)) as [F ND].
  assert (F' : Forall (fun i =>
                (Z.of_nat pos <= i < Z.of_nat (pos + S (length rs)))%Z /\
                starting_label
                  (snd (nth (Z.to_nat i - pos) (r :: rs) no_record)))
              (positions_labelled (S pos) rs)).
  { eapply Forall_impl; [|exact F]. intros i [B St]. split; [lia|].
    replace (Z.to_nat i - pos)%nat with (S (Z.to_nat i - S pos)) by lia.
    exact St. }
  destruct ((snd r =? "Standing") || (snd r =? "Walking Forward"))%string eqn:E.
  - split.
    + constructor; [|exact F']. split; [lia|].
      rewrite Nat2Z.id, Nat.sub_diag. cbn [nth].
      apply orb_prop in E as [E|E]; apply String.eqb_eq in E;
        [left|right]; exact E.
    + constructor; [|exact ND]. intros Hin.
      rewrite Forall_forall in F. specialize (F _ Hin). lia.
  - split; [exact F' | exact ND].
Qed.

Section WholeRun.
Context {sk : Collaborators} {pp : Preprocessor}.
Implicit Types (su : Setup) (ix : list Z) (s : OCluDAL).

Lemma preprocessing_after_split su ix :
  Z.of_nat (length ix) = su_annotations su ->
  in_range (length (records (su_df_main su))) ix ->
  exists su' s,
    initialise_data (Some ix) su = inr su' /\
    preprocessing su' = inr s /\
    lockstep s /\
    (NoDup ix -> pool_invariant s) /\
    df_main s = records (su_df_main su) /\
    labelled_y_new s =
      map snd (rows_at no_record (records (su_df_main su)) ix) /\
    unlabelled_y_new s =
      map snd (rows_kept no_record (records (su_df_main su)) ix) /\
    unique_labels s = np_unique (labelled_y_new s) /\
    data s = [] /\ calls s = [] /\ training_type s = "Random"%string /\
    damping s = su_damping su /\ preference s = su_preference su /\
    np_random s = su_np_random su.
Proof.
  intros Ec Hin. eexists. eexists.
  split; [apply (initialise_data_ok _ Ec Hin)|].
  unfold preprocessing. cbn [su_labelled su_unlabelled su_df_main su_damping
                             su_preference su_np_random].
  split; [reflexivity|].
  destruct (split_sizes (su_df_main su) Hin) as [L Iff].
  destruct (without_identifiers_records
              {| columns := columns (su_df_main su);
                 records := rows_at no_record (records (su_df_main su)) ix |})
    as [_ Lab1].
  destruct (without_identifiers_records
              {| columns := columns (su_df_main su);
                 records := rows_kept no_record (records (su_df_main su)) ix |})
    as [_ Lab2].
  split.
  { unfold lockstep.
    cbn [labelled_X_new labelled_y_new unlabelled_X_new unlabelled_y_new].
    rewrite !length_map. now split. }
  split.
  { intros ND. split.
    - unfold lockstep.
      cbn [labelled_X_new labelled_y_new unlabelled_X_new unlabelled_y_new].
      rewrite !length_map. now split.
    - unfold sizes_sum_to_dataset, pool_size.
      cbn [labelled_X_new unlabelled_X_new df_main].
      rewrite !length_map. now apply Iff. }
  cbn [df_main labelled_y_new unlabelled_y_new unique_labels data calls
       training_type damping preference np_random].
  rewrite Lab1, Lab2. cbn [records]. repeat split.
Qed.

Lemma run_keeps_invariant s m1 c1 m2 n c2 st :
  generator_draws_permutations -> exemplars_are_distinct ->
  pool_invariant s ->
  pool_invariant (final_state ((step1 m1 c1 ;; step2 m2 n c2 st) s)).
Proof.
  intros G X Inv. unfold bind.
  pose proof (step1_invariant m1 c1 X Inv) as I1.
  destruct (step1 m1 c1 s) as [[] s1|e s1]; cbn [final_state] in *;
    [|exact I1].
  now apply step2_invariant.
Qed.

(** X17.  The set-up establishes what the loops keep: after
    [initialise_data] on pairwise distinct indices that leave both parts
    with a row, [preprocessing] returns
    the object of the loops with its parallel arrays equally long, its
    sizes adding up to the size of the frame, the labels of the chosen rows
    in the order given, the empty table and the tag ['Random']; and from
    there [step1] followed by [step2], with any arguments and however they
    end, leave a pool with that invariant (the generator drawing
    permutations, the exemplars pairwise different). *)
Theorem set_up_establishes_the_pool_invariant su ix su' :
  NoDup ix -> ix <> [] ->
  (length ix < length (records (su_df_main su)))%nat ->
  initialise_data (Some ix) su = inr su' ->
  exists s,
    preprocessing su' = inr s /\
    pool_invariant s /\
    df_main s = records (su_df_main su) /\
    labelled_y_new s =
      map snd (rows_at no_record (records (su_df_main su)) ix) /\
    unlabelled_y_new s =
      map snd (rows_kept no_record (records (su_df_main su)) ix) /\
    unique_labels s = np_unique (labelled_y_new s) /\
    data s = [] /\ calls s = [] /\ training_type s = "Random"%string /\
    (generator_draws_permutations -> exemplars_are_distinct ->
     forall m1 c1 m2 n c2 st,
       pool_invariant (final_state ((step1 m1 c1 ;; step2 m2 n c2 st) s))).
Proof.
  intros ND _ _ E.
  destruct (proj1 (initialise_data_returns_iff su ix)) as [Ec Hin]; [eauto|].
  destruct (preprocessing_after_split su Ec Hin)
    as (su1 & s & E1 & Ep & Lk & Inv & D & Ly & Uy & UL & Da & Ca & T & _).
  rewrite E in E1. injection E1 as <-.
  exists s. split; [exact Ep|]. split; [now apply Inv|].
  repeat (split; [assumption|]).
  intros G X m1 c1 m2 n c2 st. apply run_keeps_invariant; auto.
Qed.

(** X18.  The labels the detectors are built for: after [preprocessing],
    [unique_labels] holds every label of the labelled rows once, in strictly
    increasing order; the scan of [step1] builds one mask per such label,
    and their number is the class count of the first record that
    [train_model] appends. *)
Theorem unique_labels_are_sorted_and_distinct su s :
  preprocessing su = inr s ->
  StronglySorted OrdersEx.String_as_OT.lt (unique_labels s) /\
  NoDup (unique_labels s) /\
  (forall l, In l (unique_labels s) <-> In l (labelled_y_new s)) /\
  length (masks_of s) = length (unique_labels s) /\
  exists r, data (final_state (train_model s)) = [r] /\
            Classes r = length (unique_labels s).
Proof.
  unfold preprocessing.
  destruct (su_unlabelled su) as [unl|]; [|discriminate].
  destruct (su_labelled su) as [lab|]; [|discriminate].
  intros [= <-]. cbn [unique_labels labelled_y_new].
  split; [apply np_unique_sorted|].
  split; [apply sorted_lt_NoDup, np_unique_sorted|].
  split; [apply np_unique_In|].
  split; [unfold masks_of; cbn [unique_labels]; apply length_map|].
  unfold train_model, run_classification. run_final.
  eexists. split; [reflexivity|]. cbn [Classes].
  symmetry. apply np_unique_count.
Qed.

Lemma random_choice_from_ok (g : random_state) (a : list Z) (size : Z) :
  generator_draws_permutations -> NoDup a ->
  (0 <= size <= Z.of_nat (length a))%Z ->
  exists ix g',
    random_choice_from g a size = inr (ix, g') /\
    Z.of_nat (length ix) = size /\ NoDup ix /\ incl ix a.
Proof.
  intros G NDa Hs. unfold random_choice_from.
  replace (Z.of_nat (length a) <? size)%Z with false
    by (symmetry; apply Z.ltb_ge; lia).
  replace (size <? 0)%Z with false by (symmetry; apply Z.ltb_ge; lia).
  pose proof (G g (length a)) as Perm.
  destruct (rng_permutation g (length a)) as [perm g']. cbn [fst] in Perm.
  assert (Lp : length perm = length a).
  { rewrite <- (Permutation_length Perm). apply length_seq. }
  assert (Bp : forall k, In k (Np.slice_to perm size) -> (k < length a)%nat).
  { intros k Hk. rewrite slice_to_firstn in Hk by lia. apply In_firstn in Hk.
    apply (Permutation_in _ (Permutation_sym Perm)) in Hk.
    apply in_seq in Hk. lia. }
  eexists. eexists. split; [reflexivity|]. split; [|split].
  - rewrite length_map, slice_to_firstn, length_firstn by lia. lia.
  - apply NoDup_map_on.
    + intros x y Hx Hy E.
      apply (proj1 (NoDup_nth a 0%Z) NDa); auto.
    + apply NoDup_slice_to. apply (Permutation_NoDup Perm), seq_NoDup.
  - intros i Hi. apply in_map_iff in Hi as [k [<- Hk]].
    apply nth_In. auto.
Qed.

(** X19.  The script starts from two activities.  With fewer than ten rows
    labelled ['Standing'] or ['Walking Forward'] it stops with the
    [ValueError] of [np.random.choice]; with ten or more of them in a
    frame of more than ten rows (the generator drawing permutations) the
    split and the scaling succeed, the run starts, and at
    its end, however the loops ended, the first ten labelled rows carry one
    of the two labels, the novelty detectors were built for these labels
    only, and the pool has its invariant when the exemplars are pairwise
    different. *)
Theorem main_starts_from_two_activities (df : DataFrame) (g : random_state) :
  generator_draws_permutations ->
  let candidates := positions_labelled 0 (records df) in
  ((length candidates < 10)%nat -> main df g = inl (Core ValueError)) /\
  ((10 <= length candidates)%nat -> (10 < length (records df))%nat ->
   exists out,
     main df g = inr out /\
     df_main (final_state out) = records df /\
     unique_labels (final_state out) <> [] /\
     Forall starting_label (unique_labels (final_state out)) /\
     (10 <= length (labelled_y_new (final_state out)))%nat /\
     Forall starting_label (firstn 10 (labelled_y_new (final_state out))) /\
     (exemplars_are_distinct -> pool_invariant (final_state out))).
Proof.
  intros G candidates. split.
  - intros H. unfold main. fold candidates. unfold random_choice_from.
    replace (Z.of_nat (length candidates) <? 10)%Z with true
      by (symmetry; apply Z.ltb_lt; lia).
    reflexivity.
  - intros H _. destruct (positions_labelled_spec (records df) 0) as [Fc NDc].
    fold candidates in Fc, NDc.
    destruct (@random_choice_from_ok g candidates 10 G NDc)
      as (ix & g' & Er & Li & NDi & Inc); [lia|].
    unfold main. fold candidates. rewrite Er.
    set (OC := init df 10 (75 / 100) (-180) g').
    assert (Hin : in_range (length (records (su_df_main OC))) ix).
    { apply Forall_forall. intros i Hi. apply Inc in Hi.
      rewrite Forall_forall in Fc. destruct (Fc i Hi) as [B _].
      cbn [OC init su_df_main]. lia. }
    assert (Hst : Forall starting_label
                    (map snd (rows_at no_record (records df) ix))).
    { apply Forall_forall. intros l Hl. apply in_map_iff in Hl as [r [<- Hr]].
      unfold rows_at in Hr. apply in_map_iff in Hr as [i [<- Hi]].
      apply Inc in Hi. rewrite Forall_forall in Fc. destruct (Fc i Hi) as [_ St].
      now rewrite Nat.sub_0_r in St. }
    destruct (@preprocessing_after_split OC ix Li Hin)
      as (su1 & s & E1 & Ep & Lk & Inv & D & Ly & Uy & UL & Da & Ca & T & _).
    rewrite E1, Ep. eexists. split; [reflexivity|].
    cbn [OC init su_df_main] in D, Ly.
    assert (L10 : length (labelled_y_new s) = 10%nat).
    { rewrite Ly. unfold rows_at. rewrite !length_map. lia. }
    set (out := (step1 1 800 ;; step2 1000 5 1500 "BvSB") s).
    assert (Run : labelled_extended s (final_state out) /\
                  settings_kept s (final_state out)).
    { unfold out, bind.
      destruct (step1_parts 1 800 s)
        as (r & s1 & _ & _ & EX & Ey & _ & (K1 & K2 & K3 & K4) & _
            & ((nx & ny & Lx & Ly1) & (J1 & J2 & J3 & J4) & _)).
      assert (L1 : labelled_extended s (final_state (step1 1 800 s))).
      { exists nx, ny. rewrite Lx, Ly1, EX, Ey. now split. }
      assert (S1 : settings_kept s (final_state (step1 1 800 s)))
        by (repeat split; congruence).
      destruct (step1 1 800 s) as [[] s2|e s2]; cbn [final_state] in *;
        [|now split].
      destruct (step2_progress 1000 5 1500 "BvSB" s2)
        as (L2 & (M1 & M2 & M3 & M4) & _).
      split.
      - eapply labelled_extended_trans; [exact L1|].
        destruct L2 as (x2 & y2 & A & B). exists x2, y2. now split.
      - destruct S1 as (S1a & S1b & S1c & S1d).
        cbn [set_training_type df_main unique_labels damping preference]
          in M1, M2, M3, M4.
        repeat split; congruence. }
    destruct Run as [(nx & ny & _ & Ey) (K1 & K2 & _)].
    split; [congruence|]. rewrite K2, UL.
    split; [|split; [|split; [|split]]].
    + intros Em.
      assert (Hin0 : In (nth 0 (labelled_y_new s) EmptyString)
                        (np_unique (labelled_y_new s))).
      { apply np_unique_In. apply nth_In. lia. }
      rewrite Em in Hin0. contradiction.
    + apply Forall_forall. intros l Hl.
      apply (proj1 (np_unique_In _ _)) in Hl. rewrite Ly in Hl. rewrite Forall_forall in Hst. now apply Hst.
    + rewrite Ey, length_app. lia.
    + rewrite Ey, firstn_app, L10, Nat.sub_diag, firstn_O, app_nil_r.
      rewrite <- L10, firstn_all, Ly. exact Hst.
    + intros X. apply run_keeps_invariant; auto.
Qed.

End WholeRun.

(** *** The set-up on the fixed frames *)

Lemma identifier_columns_go_together_witness :
  let out := without_identifiers toy_frame in
  wf_frame out /\
  length (records out) = length (records toy_frame) /\
  map snd (records out) = map snd (records toy_frame) /\
  (has_column toy_frame "Subject" = true -> has_column toy_frame "Index" = true ->
   columns out =
   filter (fun c => negb ((c =? "Subject") || (c =? "Index"))%string)
          (columns toy_frame) /\
   has_column out "Subject" = false /\ has_column out "Index" = false) /\
  (has_column toy_frame "Subject" = false \/ has_column toy_frame "Index" = false ->
   out = toy_frame).
Proof.
  apply (@identifier_columns_go_together toy_frame).
  repeat constructor.
Defined.

Lemma initialise_data_splits_by_position_witness :
  exists su' labelled unlabelled,
    initialise_data (Some [2; 0]%Z) toy_setup = inr su' /\
    su_labelled su' = Some labelled /\ su_unlabelled su' = Some unlabelled /\
    length (records labelled) = 2%nat /\
    ((length (records labelled) + length (records unlabelled))%nat
     = length (records toy_frame) <-> NoDup [2; 0]%Z).
Proof.
  assert (E : exists su', initialise_data (Some [2; 0]%Z) toy_setup = inr su')
    by (eexists; reflexivity).
  destruct E as [su' E].
  destruct (@initialise_data_splits_by_position toy toy_setup [2; 0]%Z su' E)
    as (lab & unl & E1 & E2 & _ & _ & L & Iff & _).
  exists su', lab, unl. repeat split; try assumption; apply Iff.
Defined.


Lemma set_up_establishes_the_pool_invariant_witness :
  exists su' s,
    initialise_data (Some [2; 0]%Z) toy_setup = inr su' /\
    preprocessing su' = inr s /\
    pool_invariant s /\
    labelled_y_new s = ["a"; "a"]%string /\
    unlabelled_y_new s = ["b"; "b"]%string /\
    unique_labels s = ["a"%string] /\
    forall m1 c1 m2 n c2 st,
      pool_invariant (final_state ((step1 m1 c1 ;; step2 m2 n c2 st) s)).
Proof.
  assert (E : exists su', initialise_data (Some [2; 0]%Z) toy_setup = inr su')
    by (eexists; reflexivity).
  destruct E as [su' E].
  assert (ND : NoDup [2; 0]%Z)
    by (repeat constructor; simpl; intuition discriminate).
  destruct (@set_up_establishes_the_pool_invariant toy toy_scaler toy_setup
              [2; 0]%Z su' ND ltac:(discriminate) ltac:(simpl; lia) E)
    as (s & Ep & Inv & _ & Ly & Uy & UL & _ & _ & _ & Run).
  exists su', s. split; [exact E|]. split; [exact Ep|]. split; [exact Inv|].
  split; [rewrite Ly; reflexivity|]. split; [rewrite Uy; reflexivity|].
  split; [rewrite UL, Ly; reflexivity|].
  apply Run; apply toy_collaborators_lawful.
Defined.

Lemma main_starts_from_two_activities_witness :
  main toy_frame false = inl (Core ValueError) /\
  exists out,
    main activity_frame false = inr out /\
    unique_labels (final_state out) <> [] /\
    Forall starting_label (unique_labels (final_state out)) /\
    Forall starting_label (firstn 10 (labelled_y_new (final_state out))) /\
    pool_invariant (final_state out).
Proof.
  split.
  - apply (@main_starts_from_two_activities toy toy_scaler toy_frame false
             (proj1 toy_collaborators_lawful)).
    simpl. lia.
  - destruct (@main_starts_from_two_activities toy toy_scaler activity_frame
                false (proj1 toy_collaborators_lawful)) as [_ H].
    destruct H as (out & E & _ & Ne & Fu & _ & Ff & Inv);
      [simpl; lia | simpl; lia |].
    exists out. split; [exact E|]. split; [exact Ne|]. split; [exact Fu|].
    split; [exact Ff|]. apply Inv, toy_collaborators_lawful.
Defined.

Lemma unique_labels_are_sorted_and_distinct_witness :
  exists su' s,
    initialise_data (Some [2; 0; 1]%Z)
                    (@init toy toy_frame 3 (3 / 4) (-180) false)
    = inr su' /\
    preprocessing su' = inr s /\
    unique_labels s = ["a"; "b"]%string /\
    StronglySorted OrdersEx.String_as_OT.lt (unique_labels s) /\
    NoDup (unique_labels s) /\
    (forall l, In l (unique_labels s) <-> In l (labelled_y_new s)) /\
    length (masks_of s) = length (unique_labels s) /\
    exists r, data (final_state (train_model s)) = [r] /\
              Classes r = length (unique_labels s).
Proof.
  destruct (@preprocessing_after_split toy toy_scaler
              (@init toy toy_frame 3 (3 / 4) (-180) false) [2; 0; 1]%Z)
    as (su' & s & E & Ep & _ & _ & _ & Ly & _ & UL & _).
  { reflexivity. }
  { repeat constructor; simpl; lia. }
  exists su', s. split; [exact E|]. split; [exact Ep|].
  split; [rewrite UL, Ly; reflexivity|].
  apply (@unique_labels_are_sorted_and_distinct toy toy_scaler su' s Ep).
Defined.
